(** * A shallow embedding of [express.py]: symbolic expressions, tensors,
    evaluation and differentiation.

    Python objects that the engine handles are one inductive type [obj]:
    the seven node classes of the module ([Number], [Symbol], [Negative],
    [Add], [Multiply], [Derivative], [Tensor]) and the host values that
    reach them (numeric scalars, strings, lists, tuples, the numpy arrays
    that [Tensor.eval] builds, and values of any other type).
    Exceptions are the constructors of [error]; a computation that may raise
    returns a [result].  Numeric scalars carry their Python type and an
    integer value: the development does not embed floating-point arithmetic,
    and arithmetic involving numpy arrays is reported as [Unmodelled]. *)

From Stdlib Require Import ZArith Ascii String List Lia.
From stdpp Require Import base gmap strings pretty.
Import ListNotations.
Open Scope Z_scope.
Set Warnings "-register-all".

(** ** Python values *)

(** The numeric scalar types: [int], [bool] (a subclass of [int]), [float]
    (with numpy's [float64], a subclass of it), [complex] and numpy's
    integer scalars (not a subclass of [int]). *)
Inductive numtype := NInt | NBool | NFloat | NComplex | NNpInt.

Inductive obj :=
(* class Number(Expression) *)
| Number (ty : numtype) (value : Z)
(* class Symbol(Expression) *)
| Symbol (name : string)
(* class Negative(Expression) *)
| Negative (arg : obj)
(* class Add(Expression): self.args *)
| Add (args : list obj)
(* class Multiply(Expression): self.args *)
| Multiply (args : list obj)
(* class Derivative(Expression): self.wrt, self.arg (None is [None]) *)
| Derivative (wrt : obj) (arg : option obj)
(* class Tensor(Expression): self.args *)
| Tensor (args : list obj)
(* host values *)
| PyNum (ty : numtype) (value : Z)
| PyStr (s : string)
| PyList (xs : list obj)
| PyTuple (xs : list obj)
| PyArray (xs : list obj)
| PyOther (type_name : string).

(** [isinstance(o, Expression)] *)
Definition is_node (o : obj) : bool :=
  match o with
  | Number _ _ | Symbol _ | Negative _ | Add _ | Multiply _
  | Derivative _ _ | Tensor _ => true
  | _ => false
  end.

(** [isinstance(o, Tensor)] *)
Definition is_tensor (o : obj) : bool :=
  match o with Tensor _ => true | _ => false end.

Definition is_array (o : obj) : bool :=
  match o with PyArray _ => true | _ => false end.

Definition type_repr (o : obj) : string :=
  match o with
  | Number _ _ => "<class 'express.Number'>"
  | Symbol _ => "<class 'express.Symbol'>"
  | Negative _ => "<class 'express.Negative'>"
  | Add _ => "<class 'express.Add'>"
  | Multiply _ => "<class 'express.Multiply'>"
  | Derivative _ _ => "<class 'express.Derivative'>"
  | Tensor _ => "<class 'express.Tensor'>"
  | PyNum NInt _ => "<class 'int'>"
  | PyNum NBool _ => "<class 'bool'>"
  | PyNum NFloat _ => "<class 'float'>"
  | PyNum NComplex _ => "<class 'complex'>"
  | PyNum NNpInt _ => "<class 'numpy.int64'>"
  | PyStr _ => "<class 'str'>"
  | PyList _ => "<class 'list'>"
  | PyTuple _ => "<class 'tuple'>"
  | PyArray _ => "<class 'numpy.ndarray'>"
  | PyOther t => t
  end.

(** ** Exceptions and the result monad *)

Inductive error :=
| TypeError (msg : string)
| AssertionError (msg : string)
| AttributeError (attr : string)
| IndexError
| NotImplementedError
(** the interpreter's recursion limit, reached when [eval] runs out of fuel *)
| RecursionError
(** numpy semantics, outside this development *)
| Unmodelled.

Inductive result (A : Type) := Ok (a : A) | Err (e : error).
Arguments Ok {A} a.
Arguments Err {A} e.

Global Instance result_ret : MRet result := fun A a => Ok a.
Global Instance result_bind : MBind result := fun A B f m =>
  match m with Ok a => f a | Err e => Err e end.

Fixpoint map_res {A B} (f : A -> result B) (xs : list A) : result (list B) :=
  match xs with
  | [] => Ok []
  | x :: xs' => y ← f x; ys ← map_res f xs'; Ok (y :: ys)
  end.

(** ** Python's [==] against an int literal, as the engine uses it
    ([self == 0], [other == 1]).  Only [Number] defines [__eq__]
    ([self.value == other]); any other node falls back to identity and
    is never equal to an int. *)
Definition eq_int (o : obj) (k : Z) : bool :=
  match o with
  | Number _ v | PyNum _ v => Z.eqb v k
  | _ => false
  end.

(** ** Host arithmetic on numeric scalars *)

Definition num_join (t1 t2 : numtype) : numtype :=
  match t1, t2 with
  | NComplex, _ | _, NComplex => NComplex
  | NFloat, _ | _, NFloat => NFloat
  | NNpInt, _ | _, NNpInt => NNpInt
  | _, _ => NInt
  end.

Definition num_neg_type (t : numtype) : numtype :=
  match t with NBool => NInt | _ => t end.

(** ** [str.split()] with no argument: runs of whitespace separate tokens,
    leading and trailing whitespace is dropped.  Characters are read as
    Latin-1 code points; [str.isspace] holds for 9-13, 28-32, 133 and 160. *)
Definition is_space (c : ascii) : bool :=
  let n := nat_of_ascii c in
  ((9 <=? n) && (n <=? 13))%nat || ((28 <=? n) && (n <=? 32))%nat
  || (n =? 133)%nat || (n =? 160)%nat.

Fixpoint split_go (s : string) (cur : string) : list string :=
  match s with
  | EmptyString => match cur with EmptyString => [] | _ => [cur] end
  | String c s' =>
      if is_space c then
        match cur with
        | EmptyString => split_go s' EmptyString
        | _ => cur :: split_go s' EmptyString
        end
      else split_go s' (cur ++ String c EmptyString)
  end.

Definition split_ws (s : string) : list string := split_go s EmptyString.

(** ** [Expression.shape] and [Expression.order] *)

Fixpoint shape (o : obj) : result (list nat) :=
  match o with
  | Tensor [] => Err IndexError
  | Tensor ((a :: _) as xs) => s ← shape a; Ok (length xs :: s)
  | _ => if is_node o then Ok [] else Err (AttributeError "shape")
  end.

Fixpoint order (o : obj) : result nat :=
  match o with
  | Tensor [] => Err IndexError
  | Tensor (a :: _) => n ← order a; Ok (S n)
  | _ => if is_node o then Ok 0%nat else Err (AttributeError "order")
  end.

(** ** [Tensor.__init__] *)

Definition list_nat_eqb (s1 s2 : list nat) : bool := bool_decide (s1 = s2).

(** The two assertions of [Tensor.__init__], on already coerced elements:
    [len(self.args) > 0] and [len(set(a.shape for a in self.args)) == 1]. *)
Definition tensor_check (es : list obj) : result obj :=
  match es with
  | [] => Err (AssertionError "cannot create empty tensor")
  | e :: _ =>
      ss ← map_res shape es;
      match ss with
      | [] => Err (AssertionError "cannot create empty tensor")
      | s :: _ =>
          if forallb (list_nat_eqb s) ss then Ok (Tensor es)
          else Err (AssertionError "tensor components must be same shape")
      end
  end.

(** ** [express] *)

Definition int_or_float (t : numtype) : bool :=
  match t with NInt | NBool | NFloat => true | _ => false end.

Definition unsupported (o : obj) : error :=
  TypeError ("cannot express " ++ type_repr o).

Fixpoint express (o : obj) : result obj :=
  if is_node o then Ok o else
  match o with
  | PyList xs | PyTuple xs => es ← map_res express xs; tensor_check es
  | PyStr s =>
      let objs := split_ws s in
      if (1 <? length objs)%nat then Ok (PyList (map Symbol objs))
      else if (length objs =? 1)%nat then
        match objs with o1 :: _ => Ok (Symbol o1) | [] => Err (unsupported o) end
      else Err (unsupported o)
  | PyNum t v => if int_or_float t then Ok (Number t v) else Err (unsupported o)
  | _ => Err (unsupported o)
  end.

(** [Tensor(args)] *)
Definition tensor_new (args : list obj) : result obj :=
  es ← map_res express args; tensor_check es.

(** ** Python's binary and unary operators on objects

    [a + b] runs [a.__add__(b)] when [a] is a node; when [a] is a host value
    and [b] a node, the host value declines and [b.__radd__(a)], i.e.
    [Expression.__add__(a, b)], runs.  The same holds for [*] and
    [__rmul__].  [Derivative] overrides [__mul__] only, and only for the
    left operand. *)

(** [Expression.__neg__], and unary minus on host values *)
Fixpoint py_neg (a : obj) : result obj :=
  match a with
  | PyNum t v => Ok (PyNum (num_neg_type t) (- v))
  | PyArray _ => Err Unmodelled
  | Tensor xs =>
      if eq_int a 0 then Ok a else
      es ← map_res py_neg xs; tensor_new es
  | _ =>
      if is_node a then (if eq_int a 0 then Ok a else Ok (Negative a))
      else Err (TypeError "bad operand type for unary -")
  end.

(** [a + b] for a left operand [a] that is not a Tensor:
    [Expression.__add__(a, b)], recursing into the elements of [b]. *)
Fixpoint add_by (a b : obj) {struct b} : result obj :=
  if is_array a || is_array b then Err Unmodelled else
  if negb (is_node a) && negb (is_node b) then
    match a, b with
    | PyNum t1 v1, PyNum t2 v2 => Ok (PyNum (num_join t1 t2) (v1 + v2))
    | _, _ => Err Unmodelled
    end
  else if eq_int b 0 then Ok a
  else if eq_int a 0 then Ok b
  else match b with
       | Tensor ys => es ← map_res (add_by a) ys; tensor_new es
       | _ => Ok (Add [a; b])
       end.

(** [a + b]: [Expression.__add__(a, b)] *)
Fixpoint py_add (a b : obj) {struct a} : result obj :=
  match a with
  | Tensor xs =>
      if is_array b then Err Unmodelled
      else if eq_int b 0 then Ok a
      else match b with
           | Tensor ys =>
               sa ← shape a; sb ← shape b;
               if list_nat_eqb sa sb then
                 es ← (fix zip_add (xs ys : list obj) : result (list obj) :=
                         match xs, ys with
                         | x :: xs', y :: ys' =>
                             r ← py_add x y; rs ← zip_add xs' ys'; Ok (r :: rs)
                         | _, _ => Ok []
                         end) xs ys;
                 tensor_new es
               else Err (AssertionError "cannot add tensors of different shapes")
           | _ => es ← map_res (fun x => py_add x b) xs; tensor_new es
           end
  | _ => add_by a b
  end.

(** [a * b] for a left operand [a] that is not a Tensor:
    [Derivative.__mul__] for a bare derivative, [Expression.__mul__(a, b)]
    otherwise, recursing into the elements of [b]. *)
Fixpoint mul_by (a b : obj) {struct b} : result obj :=
  match a with
  | Derivative w None => Ok (Derivative w (Some b))
  | _ =>
    if is_array a || is_array b then Err Unmodelled else
    if negb (is_node a) && negb (is_node b) then
      match a, b with
      | PyNum t1 v1, PyNum t2 v2 => Ok (PyNum (num_join t1 t2) (v1 * v2))
      | _, _ => Err Unmodelled
      end
    else if eq_int b 1 then Ok a
    else if eq_int a 1 then Ok b
    else match b with
         | Tensor ys => es ← map_res (mul_by a) ys; tensor_new es
         | _ =>
             if eq_int b 0 then Ok b
             else if eq_int a 0 then Ok a
             else Ok (Multiply [a; b])
         end
  end.

(** [a * b]: [Expression.__mul__(a, b)] *)
Fixpoint py_mul (a b : obj) {struct a} : result obj :=
  match a with
  | Tensor xs =>
      if is_tensor b then Err (AssertionError "cannot multiply two tensors")
      else if is_array b then Err Unmodelled
      else if eq_int b 1 then Ok a
      else es ← map_res (fun x => py_mul x b) xs; tensor_new es
  | _ => mul_by a b
  end.

(** [a - b] for a left operand [a] that is not a Tensor:
    [Expression.__sub__(a, b)], reached through [__rsub__] when [a] is a
    host value, recursing into the elements of [b]. *)
Fixpoint sub_by (a b : obj) {struct b} : result obj :=
  if is_array a || is_array b then Err Unmodelled else
  if negb (is_node a) && negb (is_node b) then
    match a, b with
    | PyNum t1 v1, PyNum t2 v2 => Ok (PyNum (num_join t1 t2) (v1 - v2))
    | _, _ => Err Unmodelled
    end
  else match b with
       | Tensor ys => es ← map_res (sub_by a) ys; tensor_new es
       | _ => nb ← py_neg b; Ok (Add [a; nb])
       end.

(** [a - b]: [Expression.__sub__(a, b)] *)
Fixpoint py_sub (a b : obj) {struct a} : result obj :=
  match a with
  | Tensor xs =>
      if is_array b then Err Unmodelled
      else match b with
           | Tensor ys =>
               sa ← shape a; sb ← shape b;
               if list_nat_eqb sa sb then
                 es ← (fix zip_sub (xs ys : list obj) : result (list obj) :=
                         match xs, ys with
                         | x :: xs', y :: ys' =>
                             r ← py_sub x y; rs ← zip_sub xs' ys'; Ok (r :: rs)
                         | _, _ => Ok []
                         end) xs ys;
                 tensor_new es
               else Err (AssertionError "cannot subtract tensors of different shapes")
           | _ => es ← map_res (fun x => py_sub x b) xs; tensor_new es
           end
  | _ => sub_by a b
  end.

(** [[f(a, b) for a, b in zip(xs, ys)]] for a fallible [f]: the loops that
    [__add__], [__sub__] and [inner] write inline. *)
Definition zip_res (f : obj -> obj -> result obj) : list obj -> list obj -> result (list obj) :=
  fix go (xs ys : list obj) : result (list obj) :=
    match xs, ys with
    | x :: xs', y :: ys' => r ← f x y; rs ← go xs' ys'; Ok (r :: rs)
    | _, _ => Ok []
    end.

(** ** [diff] *)

(** [Number.diff] *)
Fixpoint number_diff (wrt : obj) : result obj :=
  match wrt with
  | Tensor ws => es ← map_res number_diff ws; tensor_new es
  | _ => Ok (Number NInt 0)
  end.

(** [Symbol.diff] *)
Fixpoint symbol_diff (name : string) (wrt : obj) : result obj :=
  match wrt with
  | Tensor ws => es ← map_res (symbol_diff name) ws; tensor_new es
  | Symbol n =>
      if String.eqb n name then Ok (Number NInt 1)
      else Ok (Derivative wrt (Some (Symbol name)))
  | _ => Ok (Derivative wrt (Some (Symbol name)))
  end.

(** The inner loop of [Multiply.diff]: [term = term * arg] for every
    [(j, arg)] of [enumerate(self.args)] with [j != i]. *)
Fixpoint mul_others (i j : nat) (args : list obj) (term : obj) : result obj :=
  match args with
  | [] => Ok term
  | a :: rest =>
      term' ← (if (j =? i)%nat then Ok term else py_mul term a);
      mul_others i (S j) rest term'
  end.

(** The loop of [Add.diff], given the differentiation of an operand:
    [deriv = Number(0)]; the first derivative replaces it, each later one
    is added to it. *)
Fixpoint add_diff_loop (dif : obj -> result obj) (i : nat) (rest : list obj)
    (deriv : obj) : result obj :=
  match rest with
  | [] => Ok deriv
  | a :: rest' =>
      d ← dif a;
      deriv' ← (if (i =? 0)%nat then Ok d else py_add deriv d);
      add_diff_loop dif (S i) rest' deriv'
  end.

(** The outer loop of [Multiply.diff] over [enumerate(self.args)]. *)
Fixpoint mul_diff_loop (dif : obj -> result obj) (args : list obj) (i : nat)
    (rest : list obj) (deriv : obj) : result obj :=
  match rest with
  | [] => Ok deriv
  | a :: rest' =>
      d ← dif a;
      term ← mul_others i 0 args d;
      deriv' ← (if (i =? 0)%nat then Ok term else py_add deriv term);
      mul_diff_loop dif args (S i) rest' deriv'
  end.

Fixpoint diff (o wrt : obj) {struct o} : result obj :=
  match o with
  | Number _ _ => number_diff wrt
  | Symbol name => symbol_diff name wrt
  | Negative a => d ← diff a wrt; py_neg d
  | Add args => add_diff_loop (fun a => diff a wrt) 0 args (Number NInt 0)
  | Multiply args => mul_diff_loop (fun a => diff a wrt) args 0 args (Number NInt 0)
  | Derivative _ _ =>
      match wrt with
      | Tensor ws => tensor_new (map (fun a => Derivative a (Some o)) ws)
      | _ => Ok (Derivative wrt (Some o))
      end
  | Tensor args => es ← map_res (fun a => diff a wrt) args; tensor_new es
  | _ => Err (AttributeError "diff")
  end.

(** The n-ary product rule as the specification states it, for comparison
    with [Multiply.diff]: term [i] is the derivative of operand [i]
    multiplied, left to right, by every other operand unchanged; the terms
    are summed left to right, the first term standing for the sum so far,
    and the sum of no terms is the zero constant. *)
Definition other_operands_step (args : list obj) (i : nat) (acc : result obj)
    (j : nat) : result obj :=
  t ← acc; if (j =? i)%nat then Ok t else py_mul t (nth j args (Number NInt 0)).

Definition product_term (dif : obj -> result obj) (args : list obj) (i : nat)
    : result obj :=
  d ← dif (nth i args (Number NInt 0));
  fold_left (other_operands_step args i) (seq 0 (length args)) (Ok d).

Definition product_sum_step (dif : obj -> result obj) (args : list obj)
    (acc : result obj) (i : nat) : result obj :=
  s ← acc; t ← product_term dif args i;
  if (i =? 0)%nat then Ok t else py_add s t.

Definition product_rule (args : list obj) (wrt : obj) : result obj :=
  fold_left (product_sum_step (fun a => diff a wrt) args)
    (seq 0 (length args)) (Ok (Number NInt 0)).

(** ** [eval]

    [eval] receives the bindings as keyword arguments [vars]: a map from
    symbol names to Python objects.  The recursion of [eval] is bounded by
    a fuel argument, the interpreter's stack: running out of it is
    Python's [RecursionError]. *)

Abbreviation bindings := (gmap string obj).

(** The loops of [Add.eval] and [Multiply.eval]: [value = init]; the first
    operand's value replaces it, each later one is combined with [op]. *)
Fixpoint eval_loop (op : obj -> obj -> result obj) (ev : obj -> result obj)
    (i : nat) (rest : list obj) (value : obj) : result obj :=
  match rest with
  | [] => Ok value
  | a :: rest' =>
      v ← ev a;
      value' ← (if (i =? 0)%nat then Ok v else op value v);
      eval_loop op ev (S i) rest' value'
  end.

Definition loop_eval (op : obj -> obj -> result obj) (init : obj)
    (ev : obj -> result obj) (args : list obj) : result obj :=
  eval_loop op ev 0 args init.

Fixpoint eval (fuel : nat) (B : bindings) (o : obj) : result obj :=
  match fuel with
  | O => Err RecursionError
  | S f =>
      match o with
      | Number t v => Ok (PyNum t v)
      | Symbol n => Ok (default o (B !! n))
      | Negative a => v ← eval f B a; py_neg v
      | Add args => loop_eval py_add (PyNum NInt 0) (eval f B) args
      | Multiply args => loop_eval py_mul (PyNum NInt 1) (eval f B) args
      | Derivative _ None => Ok o
      | Derivative w (Some a) => d ← diff a w; eval f B d
      | Tensor args =>
          vs ← map_res (eval f B) args;
          if existsb is_node vs then tensor_new vs else Ok (PyArray vs)
      | _ => Err (AttributeError "eval")
      end
  end.

(** ** [Expression.T] *)

(** Iterating a row in [zip( *self.args)]: a Tensor iterates its [args]. *)
Definition row_items (o : obj) : result (list obj) :=
  match o with
  | Tensor ys | PyList ys | PyTuple ys => Ok ys
  | _ => Err (TypeError "object is not iterable")
  end.

Definition min_len (rows : list (list obj)) : nat :=
  match rows with
  | [] => 0%nat
  | r :: rs => fold_left Nat.min (map (@length obj) rs) (length r)
  end.

(** [zip( *rows)]: the [j]-th tuple holds the [j]-th item of every row,
    for [j] below the length of the shortest row. *)
Definition zip_star (rows : list (list obj)) : list (list obj) :=
  map (fun j => map (fun r => nth j r (PyOther "")) rows) (seq 0 (min_len rows)).

Fixpoint transpose (o : obj) : result obj :=
  n ← order o;
  if (2 <? n)%nat then
    match o with
    | Tensor xs => es ← map_res transpose xs; tensor_new es
    | _ => Err (AttributeError "args")
    end
  else if (n =? 2)%nat then
    match o with
    | Tensor xs => rows ← map_res row_items xs; tensor_new (map PyTuple (zip_star rows))
    | _ => Err (AttributeError "args")
    end
  else Ok o.

(** A value as the constructors leave it: an expression node, in which
    every Tensor has passed the assertions of [Tensor.__init__]. *)
Fixpoint wf (o : obj) : bool :=
  match o with
  | Tensor xs =>
      match tensor_check xs with Ok _ => true | Err _ => false end &&
      forallb wf xs
  | _ => is_node o
  end.

(** An expression node that is not a Tensor: an element of a vector. *)
Definition scalar_node (o : obj) : Prop := is_node o = true /\ is_tensor o = false.

(** An argument of [Tensor(args)] all of whose nodes are well formed:
    host lists and tuples, which [express] turns into Tensors, are looked
    into. *)
Fixpoint inputs_wf (o : obj) : bool :=
  match o with
  | PyList xs | PyTuple xs => forallb inputs_wf xs
  | _ => if is_node o then wf o else true
  end.

(** ** [Expression.inner] *)

(** The last line of [inner]: [Add( *[a * b for a, b in zip(self, other)])]. *)
Definition inner_base (xs ys : list obj) : result obj :=
  ps ← map_res (fun p => py_mul p.1 p.2) (combine xs ys); Ok (Add ps).

(** [self.inner(other)] for a [self] of order at most 1: only the last two
    branches of [inner] can be taken, the recursion runs over [other]. *)
Fixpoint inner_vec (a b : obj) {struct b} : result obj :=
  if negb (is_tensor a && is_tensor b) then py_mul a b else
  match a, b with
  | Tensor xs, Tensor ys =>
      ob ← order b;
      if (1 <? ob)%nat then es ← map_res (inner_vec a) ys; tensor_new es
      else inner_base xs ys
  | _, _ => py_mul a b
  end.

Fixpoint inner (a b : obj) {struct a} : result obj :=
  match a, b with
  | Tensor xs, Tensor ys =>
      oa ← order a;
      if (1 <? oa)%nat then
        ob ← order b;
        if (1 <? ob)%nat then
          es ← (fix zip_inner (xs ys : list obj) : result (list obj) :=
                  match xs, ys with
                  | x :: xs', y :: ys' =>
                      r ← inner x y; rs ← zip_inner xs' ys'; Ok (r :: rs)
                  | _, _ => Ok []
                  end) xs ys;
          tensor_new es
        else es ← map_res (fun x => inner x b) xs; tensor_new es
      else
        ob ← order b;
        if (1 <? ob)%nat then es ← map_res (inner_vec a) ys; tensor_new es
        else inner_base xs ys
  | _, _ => py_mul a b
  end.

(** [Expression.outer] *)
Definition outer (a b : obj) : result obj :=
  if negb (is_tensor a && is_tensor b) then py_mul a b else
  oa ← order a;
  if (1 <? oa)%nat then Err NotImplementedError else
  ob ← order b;
  if (1 <? ob)%nat then Err NotImplementedError else
  match a, b with
  | Tensor xs, Tensor ys =>
      rows ← map_res (fun x => es ← map_res (fun y => py_mul x y) ys; tensor_new es) xs;
      tensor_new rows
  | _, _ => py_mul a b
  end.

(** ** [__repr__]

    [repr] of a numeric value: [repr(int)] is its decimal form, [repr(bool)]
    is [True] or [False], [repr(float)] of an integral float below [1e16]
    is the decimal form followed by [.0]; the forms of larger floats and of
    numpy scalars are left out. *)
Definition num_repr (t : numtype) (v : Z) : result string :=
  match t with
  | NInt => Ok (pretty v)
  | NBool => Ok (if Z.eqb v 0 then "False" else "True")
  | NFloat => if Z.abs v <? 10 ^ 16 then Ok (pretty v +:+ ".0") else Err Unmodelled
  | _ => Err Unmodelled
  end.

(** [repr] of the objects that the node classes hold.  [Tensor.__repr__]
    prints a numpy array, and [repr] of a host string quotes and escapes
    it: both are left out. *)
Fixpoint py_repr (o : obj) : result string :=
  match o with
  | Number t v => num_repr t v
  | Symbol name => Ok name
  | Negative a => s ← py_repr a; Ok ("-" +:+ s)
  | Add args => ss ← map_res py_repr args; Ok ("(" +:+ String.concat " + " ss +:+ ")")
  | Multiply args => ss ← map_res py_repr args; Ok (String.concat "" ss)
  | Derivative w None => ws ← py_repr w; Ok ("d/d" +:+ ws)
  | Derivative w (Some a) =>
      ws ← py_repr w; s ← py_repr a;
      match a with
      | Symbol _ | Number _ _ => Ok ("d" +:+ s +:+ "/d" +:+ ws)
      | _ => Ok ("(d/d" +:+ ws +:+ " " +:+ s +:+ ")")
      end
  | PyNum t v => num_repr t v
  | _ => Err Unmodelled
  end.

(** ** Object identity

    [==] between two node objects: [Number.__eq__] compares [self.value]
    with the other operand (an int compared with a [Number] defers to the
    [Number]); every other node class inherits [object.__eq__], which is
    identity.  Objects live at locations of a heap. *)
Module PyIdentity.

Abbreviation heap := (gmap positive obj).

Definition node_eq (h : heap) (l1 l2 : positive) : option bool :=
  match h !! l1, h !! l2 with
  | Some (Number _ v), Some o2 => if is_node o2 then Some (eq_int o2 v) else None
  | Some o1, Some (Number _ w) => if is_node o1 then Some (eq_int o1 w) else None
  | Some o1, Some o2 =>
      if is_node o1 && is_node o2 then Some (bool_decide (l1 = l2)) else None
  | _, _ => None
  end.

End PyIdentity.

Example ex_split : split_ws " x  y	z " = ["x"; "y"; "z"]%string.
Proof. reflexivity. Qed.

Example ex_xx :
  (f ← py_mul (Symbol "x") (Symbol "x");
   d ← diff f (Symbol "x");
   eval 10 {[ "x" := PyNum NInt 3 ]} d) = Ok (PyNum NInt 6).
Proof. reflexivity. Qed.

Example ex_xy :
  (f ← py_mul (Symbol "x") (Symbol "y");
   eval 10 {[ "x" := PyNum NInt 2; "y" := PyNum NInt 5 ]} f) = Ok (PyNum NInt 10).
Proof. reflexivity. Qed.

Example ex_xy_diff :
  (f ← py_mul (Symbol "x") (Symbol "y");
   d ← diff f (Symbol "x");
   eval 30 {[ "y" := PyNum NInt 5 ]} d) = Err RecursionError.
Proof. reflexivity. Qed.

Example ex_T :
  transpose (Tensor [Tensor [Symbol "a"; Symbol "b"; Symbol "c"];
                     Tensor [Symbol "d"; Symbol "e"; Symbol "f"]])
  = Ok (Tensor [Tensor [Symbol "a"; Symbol "d"]; Tensor [Symbol "b"; Symbol "e"];
                Tensor [Symbol "c"; Symbol "f"]]).
Proof. reflexivity. Qed.

Example ex_inner :
  inner (Tensor [Symbol "a"; Symbol "b"]) (Tensor [Symbol "c"; Number NInt 1])
  = Ok (Add [Multiply [Symbol "a"; Symbol "c"]; Symbol "b"]).
Proof. reflexivity. Qed.

(** * General facts *)

Section obj_rect_nested.
Variable P : obj -> Prop.
Hypothesis HNumber : forall t v, P (Number t v).
Hypothesis HSymbol : forall n, P (Symbol n).
Hypothesis HNegative : forall a, P a -> P (Negative a).
Hypothesis HAdd : forall args, Forall P args -> P (Add args).
Hypothesis HMultiply : forall args, Forall P args -> P (Multiply args).
Hypothesis HDerivative : forall w a, P w ->
  match a with Some x => P x | None => True end -> P (Derivative w a).
Hypothesis HTensor : forall args, Forall P args -> P (Tensor args).
Hypothesis HPyNum : forall t v, P (PyNum t v).
Hypothesis HPyStr : forall s, P (PyStr s).
Hypothesis HPyList : forall xs, Forall P xs -> P (PyList xs).
Hypothesis HPyTuple : forall xs, Forall P xs -> P (PyTuple xs).
Hypothesis HPyArray : forall xs, Forall P xs -> P (PyArray xs).
Hypothesis HPyOther : forall t, P (PyOther t).

Fixpoint obj_ind_nested (o : obj) : P o :=
  let fix all (l : list obj) : Forall P l :=
    match l with
    | [] => List.Forall_nil P
    | x :: l' => @List.Forall_cons obj P x l' (obj_ind_nested x) (all l')
    end in
  match o with
  | Number t v => HNumber t v
  | Symbol n => HSymbol n
  | Negative a => HNegative a (obj_ind_nested a)
  | Add args => HAdd args (all args)
  | Multiply args => HMultiply args (all args)
  | Derivative w a =>
      HDerivative w a (obj_ind_nested w)
        (match a as a0 return (match a0 with Some x => P x | None => True end) with
         | Some y => obj_ind_nested y
         | None => I
         end)
  | Tensor args => HTensor args (all args)
  | PyNum t v => HPyNum t v
  | PyStr s => HPyStr s
  | PyList xs => HPyList xs (all xs)
  | PyTuple xs => HPyTuple xs (all xs)
  | PyArray xs => HPyArray xs (all xs)
  | PyOther t => HPyOther t
  end.
End obj_rect_nested.

Lemma bind_ok {A B} (a : A) (f : A -> result B) : (Ok a ≫= f) = f a.
Proof. reflexivity. Qed.

Lemma bind_err {A B} (e : error) (f : A -> result B) : (Err e ≫= f) = Err e.
Proof. reflexivity. Qed.

Lemma bind_ok_inv {A B} (m : result A) (f : A -> result B) (r : B) :
  (m ≫= f) = Ok r -> exists a, m = Ok a /\ f a = Ok r.
Proof. destruct m; simpl; [eauto | discriminate]. Qed.

Lemma map_res_length {A B} (f : A -> result B) xs ys :
  map_res f xs = Ok ys -> length ys = length xs.
Proof.
  revert ys; induction xs as [|x xs IH]; simpl; intros ys H.
  - injection H as <-; reflexivity.
  - destruct (f x) as [y|e]; [|discriminate]; simpl in H.
    destruct (map_res f xs) as [ys'|e] eqn:E; [|discriminate]; simpl in H.
    injection H as <-; simpl; rewrite (IH ys' eq_refl); reflexivity.
Qed.

Lemma map_res_ok {A B} (f : A -> result B) xs ys :
  map_res f xs = Ok ys -> Forall2 (fun x y => f x = Ok y) xs ys.
Proof.
  revert ys; induction xs as [|x xs IH]; simpl; intros ys H.
  - injection H as <-; constructor.
  - destruct (f x) as [y|e] eqn:Ex; [|discriminate]; simpl in H.
    destruct (map_res f xs) as [ys'|e] eqn:E; [|discriminate]; simpl in H.
    injection H as <-; constructor; auto.
Qed.

Lemma map_res_all_ok {A B} (f : A -> result B) xs ys :
  Forall2 (fun x y => f x = Ok y) xs ys -> map_res f xs = Ok ys.
Proof. induction 1 as [|x y xs ys Hxy _ IH]; simpl; [reflexivity|]. by rewrite Hxy, IH. Qed.

Lemma tensor_check_ok es t :
  tensor_check es = Ok t ->
  t = Tensor es /\ es <> [] /\
  exists s, Forall (fun e => shape e = Ok s) es.
Proof.
  unfold tensor_check; destruct es as [|e es']; [discriminate|].
  destruct (map_res shape (e :: es')) as [ss|err] eqn:Hs; simpl; [|discriminate].
  destruct ss as [|s ss']; [discriminate|].
  destruct (forallb (list_nat_eqb s) (s :: ss')) eqn:Hall; [|discriminate].
  intros H; injection H as <-; split; [reflexivity|]; split; [discriminate|].
  exists s. apply map_res_ok in Hs.
  pose proof (proj1 (forallb_forall _ _) Hall) as Hall'; clear Hall; rename Hall' into Hall.
  revert Hs Hall; generalize (s :: ss'); intros l Hs Hall.
  induction Hs as [|x y xs ys Hxy _ IH]; constructor.
  - unfold list_nat_eqb in Hall.
    specialize (Hall y (or_introl eq_refl)). apply bool_decide_eq_true in Hall.
    by rewrite Hxy, Hall.
  - apply IH; intros z Hz; apply Hall; right; exact Hz.
Qed.

Lemma tensor_new_ok args t :
  tensor_new args = Ok t -> exists es, t = Tensor es /\ es <> [].
Proof.
  unfold tensor_new; intros H; apply bind_ok_inv in H as (es & _ & H).
  apply tensor_check_ok in H as (-> & Hne & _); eauto.
Qed.

(** ** Symbols under [diff] and [eval] *)

Lemma diff_symbol_same x : diff (Symbol x) (Symbol x) = Ok (Number NInt 1).
Proof. simpl. by rewrite String.eqb_refl. Qed.

Lemma diff_symbol_other x y :
  x <> y -> diff (Symbol x) (Symbol y) = Ok (Derivative (Symbol y) (Some (Symbol x))).
Proof.
  intros Hne; simpl.
  destruct (String.eqb y x) eqn:E; [|reflexivity].
  apply String.eqb_eq in E; congruence.
Qed.

(** [Derivative(y, arg=x).eval()] calls [x.diff(y).eval()], which is the
    same node again: the evaluation never returns. *)
Lemma eval_symbol_derivative_diverges n B x y :
  x <> y -> eval n B (Derivative (Symbol y) (Some (Symbol x))) = Err RecursionError.
Proof.
  intros Hne; induction n as [|n IH]; [reflexivity|].
  cbn [eval]. rewrite diff_symbol_other by exact Hne. exact IH.
Qed.

(** ** Fuel *)

Lemma bind_not_rec {A B} (m : result A) (f : A -> result B) :
  (m ≫= f) <> Err RecursionError -> m <> Err RecursionError.
Proof. destruct m; simpl; congruence. Qed.

Lemma loop_eval_fuel op init (ev1 ev2 : obj -> result obj) args :
  (forall x, ev1 x <> Err RecursionError -> ev2 x = ev1 x) ->
  loop_eval op init ev1 args <> Err RecursionError ->
  loop_eval op init ev2 args = loop_eval op init ev1 args.
Proof.
  intros Hev; unfold loop_eval.
  generalize 0%nat as i; generalize init as value.
  induction args as [|a args IH]; intros value i H; [reflexivity|].
  simpl in *. pose proof (bind_not_rec _ _ H) as Ha.
  rewrite (Hev a Ha). destruct (ev1 a) as [v|e]; [|reflexivity].
  simpl in *. destruct (if (i =? 0)%nat then Ok v else op value v) as [w|e];
    simpl in *; [|reflexivity].
  apply IH; exact H.
Qed.

Lemma map_res_fuel (ev1 ev2 : obj -> result obj) args :
  (forall x, ev1 x <> Err RecursionError -> ev2 x = ev1 x) ->
  map_res ev1 args <> Err RecursionError ->
  map_res ev2 args = map_res ev1 args.
Proof.
  intros Hev; induction args as [|a args IH]; intros H; [reflexivity|].
  simpl in *. pose proof (bind_not_rec _ _ H) as Ha.
  rewrite (Hev a Ha). destruct (ev1 a) as [v|e]; simpl in *; [|reflexivity].
  pose proof (bind_not_rec _ _ H) as Hr. rewrite (IH Hr); reflexivity.
Qed.

(** A result that [eval] reaches with some fuel is the result with more. *)
Lemma eval_S f B o :
  eval (S f) B o =
  match o with
  | Number t v => Ok (PyNum t v)
  | Symbol n => Ok (default o (B !! n))
  | Negative a => v ← eval f B a; py_neg v
  | Add args => loop_eval py_add (PyNum NInt 0) (eval f B) args
  | Multiply args => loop_eval py_mul (PyNum NInt 1) (eval f B) args
  | Derivative _ None => Ok o
  | Derivative w (Some a) => d ← diff a w; eval f B d
  | Tensor args =>
      vs ← map_res (eval f B) args;
      if existsb is_node vs then tensor_new vs else Ok (PyArray vs)
  | _ => Err (AttributeError "eval")
  end.
Proof. reflexivity. Qed.

(** A result that [eval] reaches with some fuel is the result with more. *)
Lemma eval_fuel_S n B o :
  eval n B o <> Err RecursionError -> eval (S n) B o = eval n B o.
Proof.
  revert B o; induction n as [|n IH]; intros B o H; [contradiction|].
  rewrite (eval_S (S n)), (eval_S n). rewrite (eval_S n) in H.
  destruct o as [t v|x|a|args|args|w [a|]|args|t v|s|xs|xs|xs|t];
    try reflexivity.
  - rewrite (IH B a (bind_not_rec _ _ H)); reflexivity.
  - apply loop_eval_fuel; [apply IH|exact H].
  - apply loop_eval_fuel; [apply IH|exact H].
  - destruct (diff a w) as [d|e]; simpl in *; [|reflexivity].
    apply IH; exact H.
  - rewrite (map_res_fuel (eval n B) (eval (S n) B) args (IH B)
               (bind_not_rec _ _ H)); reflexivity.
Qed.

Lemma eval_fuel_le n m B o :
  (n <= m)%nat -> eval n B o <> Err RecursionError -> eval m B o = eval n B o.
Proof.
  induction 1 as [|m Hle IH]; intros H; [reflexivity|].
  rewrite eval_fuel_S; [apply IH; exact H|]. rewrite IH; exact H.
Qed.

(** * The claims *)

(** ** Derivative of a Symbol *)

(** C1 (as amended). [x.diff(x).eval()] is [1] for every Symbol [x], at
    every recursion depth that allows one call.  For Symbols [x], [y] with
    distinct names, [x.diff(y)] is not the constant [0]: it is the deferred
    node [Derivative(y, arg=x)]. *)
Theorem symbol_diff_spec :
  (forall (x : string) (n : nat),
     (d ← diff (Symbol x) (Symbol x); eval (S n) ∅ d) = Ok (PyNum NInt 1)) /\
  (forall x y : string, x <> y ->
     diff (Symbol x) (Symbol y) = Ok (Derivative (Symbol y) (Some (Symbol x)))).
Proof.
  split.
  - intros x n. rewrite diff_symbol_same. reflexivity.
  - exact diff_symbol_other.
Qed.

Lemma symbol_diff_spec_witness :
  "x"%string <> "y"%string /\
  diff (Symbol "x") (Symbol "y") = Ok (Derivative (Symbol "y") (Some (Symbol "x"))).
Proof.
  split; [discriminate|].
  apply (proj2 symbol_diff_spec). discriminate.
Defined.

(** C1 refuted: [Symbol('x').diff(Symbol('y'))] is not [0], and its
    evaluation under empty bindings never yields [0]: at every recursion
    depth it is still recursing. *)
Lemma symbol_diff_other_not_zero :
  diff (Symbol "x") (Symbol "y") <> Ok (Number NInt 0) /\
  ~ (exists n, (d ← diff (Symbol "x") (Symbol "y"); eval n ∅ d) = Ok (PyNum NInt 0)).
Proof.
  rewrite diff_symbol_other by discriminate.
  split; [discriminate|].
  intros [n Hn]. simpl in Hn.
  rewrite eval_symbol_derivative_diverges in Hn by discriminate. discriminate.
Qed.

(** ** Evaluation of a Derivative node *)

(** C3. Evaluating an applied [Derivative(wrt, arg)] is
    [arg.diff(wrt).eval(B)]: at each recursion depth the result is the one
    of that call one level deeper, and a value is reached by one exactly
    when it is reached by the other.  A bare [Derivative] evaluates to
    itself. *)
Theorem derivative_eval (B : bindings) (w a : obj) :
  (forall n, eval (S n) B (Derivative w (Some a)) = (d ← diff a w; eval n B d)) /\
  (forall v, (exists n, eval n B (Derivative w (Some a)) = Ok v) <->
             (exists n, (d ← diff a w; eval n B d) = Ok v)) /\
  (forall n, eval (S n) B (Derivative w None) = Ok (Derivative w None)).
Proof.
  split; [intros n; reflexivity|]. split; [|intros n; reflexivity].
  intros v; split.
  - intros [[|n] Hn]; [discriminate|]. exists n. exact Hn.
  - intros [n Hn]. exists (S n). exact Hn.
Qed.

(** ** Coercion *)

Lemma split_go_blank s :
  (forall c, In c (list_ascii_of_string s) -> is_space c = true) ->
  split_go s EmptyString = [].
Proof.
  induction s as [|c s IH]; intros H; [reflexivity|].
  simpl. rewrite (H c (or_introl eq_refl)).
  apply IH. intros c' Hc'. apply H. right. exact Hc'.
Qed.

(** C10. Coercing a string that is empty or made only of whitespace (its
    whitespace split has no token) raises the [TypeError] of the final
    [raise], the same error [express] raises for a value of a type it does
    not recognise. *)
Theorem express_blank_string (s : string) :
  (forall c, In c (list_ascii_of_string s) -> is_space c = true) ->
  split_ws s = [] /\
  express (PyStr s) = Err (unsupported (PyStr s)) /\
  (forall t, express (PyOther t) = Err (unsupported (PyOther t))).
Proof.
  intros H. pose proof (split_go_blank s H) as Hs.
  split; [exact Hs|]. split; [|reflexivity].
  simpl. unfold split_ws. rewrite Hs. reflexivity.
Qed.

Lemma express_blank_string_witness :
  (forall c, In c (list_ascii_of_string " 	") -> is_space c = true) /\
  express (PyStr " 	") = Err (TypeError "cannot express <class 'str'>").
Proof.
  assert (H : forall c, In c (list_ascii_of_string " 	") -> is_space c = true).
  { intros c Hc. simpl in Hc. destruct Hc as [<-|[<-|[]]]; reflexivity. }
  split; [exact H|].
  exact (proj1 (proj2 (express_blank_string " 	" H))).
Defined.

(** C7 (as amended). The rules of [express], in the order the code tests
    them: a node is returned unchanged; a list or tuple goes to the Tensor
    constructor, which coerces its elements; a string of several tokens
    gives the list of their Symbols, a string of one token its Symbol; an
    [int] or a [float] (with their subclasses, such as [bool]) gives a
    Number; any other value, other numeric types such as [complex] or numpy
    integers included, raises the [TypeError] of the final [raise]. *)
Theorem express_rules :
  (forall o, is_node o = true -> express o = Ok o) /\
  (forall xs, express (PyList xs) = tensor_new xs /\
              express (PyTuple xs) = tensor_new xs) /\
  (forall s, (1 < length (split_ws s))%nat ->
     express (PyStr s) = Ok (PyList (map Symbol (split_ws s)))) /\
  (forall s t, split_ws s = [t] -> express (PyStr s) = Ok (Symbol t)) /\
  (forall t v, int_or_float t = true -> express (PyNum t v) = Ok (Number t v)) /\
  (forall t v, int_or_float t = false ->
     express (PyNum t v) = Err (unsupported (PyNum t v))) /\
  (forall xs, express (PyArray xs) = Err (unsupported (PyArray xs))) /\
  (forall t, express (PyOther t) = Err (unsupported (PyOther t))).
Proof.
  split; [intros o Ho; destruct o; try discriminate Ho; reflexivity|].
  split; [intros xs; split; reflexivity|].
  split.
  { intros s Hl. simpl. apply Nat.ltb_lt in Hl. rewrite Hl. reflexivity. }
  split.
  { intros s t Ht. simpl. rewrite Ht. reflexivity. }
  split; [intros t v Ht; simpl; rewrite Ht; reflexivity|].
  split; [intros t v Ht; simpl; rewrite Ht; reflexivity|].
  split; intros; reflexivity.
Qed.

Lemma express_rules_witness :
  (is_node (Symbol "x") = true /\ express (Symbol "x") = Ok (Symbol "x")) /\
  ((1 < length (split_ws "x y"))%nat /\
   express (PyStr "x y") = Ok (PyList [Symbol "x"; Symbol "y"])) /\
  (split_ws " x " = ["x"%string] /\ express (PyStr " x ") = Ok (Symbol "x")) /\
  (int_or_float NBool = true /\ express (PyNum NBool 1) = Ok (Number NBool 1)) /\
  (int_or_float NComplex = false /\
   express (PyNum NComplex 2) = Err (TypeError "cannot express <class 'complex'>")).
Proof.
  destruct express_rules as (H1 & _ & H3 & H4 & H5 & H6 & _).
  split; [split; [reflexivity| apply H1; reflexivity]|].
  split; [split; [vm_compute; lia| apply (H3 "x y"%string); vm_compute; lia]|].
  split; [split; [reflexivity| apply H4; reflexivity]|].
  split; [split; [reflexivity| apply H5; reflexivity]|].
  split; [reflexivity| apply H6; reflexivity].
Defined.

(** C7 refuted: a [complex] and a numpy integer are numeric scalars, and
    [express] rejects both. *)
Lemma express_numeric_rejected :
  express (PyNum NComplex 1) = Err (TypeError "cannot express <class 'complex'>") /\
  express (PyNum NNpInt 3) = Err (TypeError "cannot express <class 'numpy.int64'>").
Proof. split; reflexivity. Qed.

(** ** Identity elimination in the operators *)

Lemma node_eq_int_number (z : obj) (k : Z) :
  is_node z = true -> eq_int z k = true -> exists t, z = Number t k.
Proof.
  destruct z; simpl; try discriminate.
  intros _ H. apply Z.eqb_eq in H. subst. eauto.
Qed.

(** C9 (as amended). For a node [e] that is not a Tensor, a node [z] equal
    to [0] and a node [one] equal to [1]: [e + z] is [e]; [-z] is [z];
    unless [e] is a bare Derivative, [e * one] is [e] and [e * z] is [z].
    A bare Derivative on the left of [*] is instead applied to the other
    operand. *)
Theorem construction_identities (e z one : obj) :
  is_node e = true -> is_tensor e = false ->
  is_node z = true -> eq_int z 0 = true ->
  is_node one = true -> eq_int one 1 = true ->
  py_add e z = Ok e /\ py_neg z = Ok z /\
  ((forall w, e <> Derivative w None) -> py_mul e one = Ok e /\ py_mul e z = Ok z) /\
  (forall w, e = Derivative w None ->
     py_mul e one = Ok (Derivative w (Some one)) /\
     py_mul e z = Ok (Derivative w (Some z))).
Proof.
  intros He Hte Hz Hz0 Ho Ho1.
  destruct (node_eq_int_number z 0 Hz Hz0) as [tz ->].
  destruct (node_eq_int_number one 1 Ho Ho1) as [to ->].
  split.
  { destruct e; try discriminate; reflexivity. }
  split; [reflexivity|].
  split.
  - intros Hnb. destruct e as [t v|x|a|args|args|w [a|]|args|t v|s|xs|xs|xs|t];
      try discriminate; try (exfalso; exact (Hnb w eq_refl));
      simpl; try (split; reflexivity).
    destruct (Z.eqb_spec v 1); split; reflexivity.
  - intros w ->. split; reflexivity.
Qed.

Lemma construction_identities_witness :
  py_add (Symbol "x") (Number NInt 0) = Ok (Symbol "x") /\
  py_neg (Number NInt 0) = Ok (Number NInt 0) /\
  py_mul (Symbol "x") (Number NInt 1) = Ok (Symbol "x") /\
  py_mul (Symbol "x") (Number NInt 0) = Ok (Number NInt 0).
Proof.
  destruct (construction_identities (Symbol "x") (Number NInt 0) (Number NInt 1)
              eq_refl eq_refl eq_refl eq_refl eq_refl eq_refl) as (H1 & H2 & H3 & _).
  split; [exact H1|]. split; [exact H2|].
  apply H3. discriminate.
Defined.

(** C9 refuted: a bare [Derivative] times [Number(1)] is not the
    Derivative itself but the Derivative applied to [Number(1)]. *)
Lemma bare_derivative_times_one :
  py_mul (Derivative (Symbol "x") None) (Number NInt 1)
  = Ok (Derivative (Symbol "x") (Some (Number NInt 1))) /\
  py_mul (Derivative (Symbol "x") None) (Number NInt 1)
  <> Ok (Derivative (Symbol "x") None).
Proof. split; [reflexivity|discriminate]. Qed.

(** ** Tensor construction *)

(** C6. [Tensor([])] fails its first assertion; when the coerced elements
    have shapes of which two differ it fails its second assertion; and a
    Tensor the constructor returns holds a non-empty list of elements that
    all have one shape. *)
Theorem tensor_construction :
  tensor_new [] = Err (AssertionError "cannot create empty tensor") /\
  (forall args es ss,
     map_res express args = Ok es -> map_res shape es = Ok ss ->
     (exists s1 s2, In s1 ss /\ In s2 ss /\ s1 <> s2) ->
     tensor_new args = Err (AssertionError "tensor components must be same shape")) /\
  (forall args t, tensor_new args = Ok t ->
     exists es, t = Tensor es /\ es <> [] /\
       exists s, Forall (fun e => shape e = Ok s) es).
Proof.
  split; [reflexivity|]. split.
  - intros args es ss Hes Hss (s1 & s2 & H1 & H2 & Hne).
    unfold tensor_new. rewrite Hes. simpl.
    destruct es as [|e es'].
    { simpl in Hss. injection Hss as <-. destruct H1. }
    unfold tensor_check. rewrite Hss. simpl.
    destruct ss as [|s ss']; [destruct H1|].
    destruct (forallb (list_nat_eqb s) (s :: ss')) eqn:Hall; [|reflexivity].
    exfalso. pose proof (proj1 (forallb_forall _ _) Hall) as Hall'.
    pose proof (Hall' s1 H1) as E1. pose proof (Hall' s2 H2) as E2.
    unfold list_nat_eqb in E1, E2.
    apply bool_decide_eq_true in E1, E2. congruence.
  - intros args t H. unfold tensor_new in H.
    apply bind_ok_inv in H as (es & _ & H).
    apply tensor_check_ok in H as (-> & Hne & Hs). eauto.
Qed.

Lemma tensor_construction_witness :
  map_res express [Symbol "x"; PyList [Symbol "y"]] = Ok [Symbol "x"; Tensor [Symbol "y"]] /\
  map_res shape [Symbol "x"; Tensor [Symbol "y"]] = Ok [[]; [1%nat]] /\
  tensor_new [Symbol "x"; PyList [Symbol "y"]]
  = Err (AssertionError "tensor components must be same shape").
Proof.
  split; [reflexivity|]. split; [reflexivity|].
  apply (proj1 (proj2 tensor_construction)
           [Symbol "x"; PyList [Symbol "y"]] [Symbol "x"; Tensor [Symbol "y"]]
           [[]; [1%nat]]); [reflexivity|reflexivity|].
  exists [], [1%nat]. split; [left; reflexivity|]. split; [right; left; reflexivity|].
  discriminate.
Defined.

(** ** Equality of Symbols *)

Module SymbolEquality.
Import PyIdentity.

(** C4 (as amended). Two Symbol objects compare equal exactly when they
    are the same object; equal Symbols then have the same name, but two
    distinct Symbol objects with the same name are not equal. *)
Theorem symbol_eq_is_identity (h : heap) (l1 l2 : positive) (n1 n2 : string) :
  h !! l1 = Some (Symbol n1) -> h !! l2 = Some (Symbol n2) ->
  (node_eq h l1 l2 = Some true <-> l1 = l2) /\
  (node_eq h l1 l2 = Some true -> n1 = n2).
Proof.
  intros H1 H2.
  assert (Hiff : node_eq h l1 l2 = Some true <-> l1 = l2).
  { unfold node_eq. rewrite H1, H2. simpl. split.
    - intros H. injection H as H. apply bool_decide_eq_true in H. exact H.
    - intros ->. f_equal. apply bool_decide_eq_true. reflexivity. }
  split; [exact Hiff|].
  intros H. apply Hiff in H. subst l2. rewrite H1 in H2. congruence.
Qed.

Lemma symbol_eq_is_identity_witness :
  ({[1%positive := Symbol "x"]} : heap) !! 1%positive = Some (Symbol "x") /\
  node_eq {[1%positive := Symbol "x"]} 1%positive 1%positive = Some true.
Proof.
  split; [vm_compute; reflexivity|].
  destruct (symbol_eq_is_identity ({[1%positive := Symbol "x"]} : heap) 1 1 "x" "x")
    as [Hiff _]; [vm_compute; reflexivity|vm_compute; reflexivity|].
  apply Hiff; reflexivity.
Defined.

(** C4 refuted: two Symbol objects both named [x] are not equal. *)
Lemma same_name_symbols_unequal :
  let h : heap := {[1%positive := Symbol "x"; 2%positive := Symbol "x"]} in
  h !! 1%positive = Some (Symbol "x") /\ h !! 2%positive = Some (Symbol "x") /\
  node_eq h 1%positive 2%positive = Some false.
Proof. vm_compute. repeat split. Qed.

End SymbolEquality.

(** ** Inner product of two vectors *)


Lemma eval_number_inv n B t v r :
  eval n B (Number t v) = Ok r -> r = PyNum t v.
Proof. destruct n; simpl; congruence. Qed.

Lemma eval_ok_S n B o r : eval n B o = Ok r -> eval (S n) B o = Ok r.
Proof. intros H. rewrite eval_fuel_S; [exact H|]. rewrite H; discriminate. Qed.

Lemma mul_by_scalars (x y : obj) :
  scalar_node x -> scalar_node y -> (forall w, x <> Derivative w None) ->
  mul_by x y =
  if eq_int y 1 then Ok x else if eq_int x 1 then Ok y
  else if eq_int y 0 then Ok y else if eq_int x 0 then Ok x
  else Ok (Multiply [x; y]).
Proof.
  intros [Hx Htx] [Hy Hty] Hnb.
  destruct x as [t v|x|a|args|args|w [a|]|args|t v|s|xs|xs|xs|t];
    try discriminate; try (exfalso; exact (Hnb w eq_refl));
  destruct y; try discriminate; reflexivity.
Qed.

Lemma py_mul_scalars_eval n B (x y : obj) (a b : Z) :
  scalar_node x -> scalar_node y ->
  eval n B x = Ok (PyNum NInt a) -> eval n B y = Ok (PyNum NInt b) ->
  exists p, py_mul x y = Ok p /\ scalar_node p /\
            eval (S n) B p = Ok (PyNum NInt (a * b)).
Proof.
  intros Hx Hy Ha Hb.
  assert (Hnb : forall w, x <> Derivative w None).
  { intros w ->. destruct n; simpl in Ha; discriminate. }
  assert (Hmul : py_mul x y = mul_by x y).
  { destruct Hx as [_ Htx]. destruct x; try discriminate; reflexivity. }
  rewrite Hmul, (mul_by_scalars x y Hx Hy Hnb).
  destruct (eq_int y 1) eqn:Ey1.
  { destruct (node_eq_int_number y 1 (proj1 Hy) Ey1) as [t ->].
    apply eval_number_inv in Hb. injection Hb as ? ?; subst.
    exists x. split; [reflexivity|]. split; [exact Hx|].
    rewrite Z.mul_1_r. apply eval_ok_S; exact Ha. }
  destruct (eq_int x 1) eqn:Ex1.
  { destruct (node_eq_int_number x 1 (proj1 Hx) Ex1) as [t ->].
    apply eval_number_inv in Ha. injection Ha as ? ?; subst.
    exists y. split; [reflexivity|]. split; [exact Hy|].
    rewrite Z.mul_1_l. apply eval_ok_S; exact Hb. }
  destruct (eq_int y 0) eqn:Ey0.
  { destruct (node_eq_int_number y 0 (proj1 Hy) Ey0) as [t ->].
    apply eval_number_inv in Hb. injection Hb as ? ?; subst.
    exists (Number NInt 0). split; [reflexivity|]. split; [split; reflexivity|].
    rewrite Z.mul_0_r. reflexivity. }
  destruct (eq_int x 0) eqn:Ex0.
  { destruct (node_eq_int_number x 0 (proj1 Hx) Ex0) as [t ->].
    apply eval_number_inv in Ha. injection Ha as ? ?; subst.
    exists (Number NInt 0). split; [reflexivity|]. split; [split; reflexivity|].
    rewrite Z.mul_0_l. reflexivity. }
  exists (Multiply [x; y]). split; [reflexivity|]. split; [split; reflexivity|].
  rewrite eval_S. unfold loop_eval. simpl. rewrite Ha. simpl. rewrite Hb. reflexivity.
Qed.

Lemma py_mul_pairs n B (xs ys : list obj) (avs bvs : list Z) :
  Forall scalar_node xs -> Forall scalar_node ys ->
  Forall2 (fun x a => eval n B x = Ok (PyNum NInt a)) xs avs ->
  Forall2 (fun y b => eval n B y = Ok (PyNum NInt b)) ys bvs ->
  exists ps, map_res (fun p => py_mul p.1 p.2) (combine xs ys) = Ok ps /\
    Forall2 (fun p c => eval (S n) B p = Ok (PyNum NInt c)) ps (zip_with Z.mul avs bvs).
Proof.
  intros Hxs Hys Ha. revert ys bvs Hys.
  induction Ha as [|x a xs avs Hxa _ IH]; intros ys bvs Hys Hb.
  - exists []. split; [reflexivity|]. constructor.
  - destruct Hb as [|y b ys bvs Hyb Hb].
    + exists []. split; [reflexivity|]. constructor.
    + inversion Hxs as [|? ? Hx Hxs']; subst. inversion Hys as [|? ? Hy Hys']; subst.
      destruct (py_mul_scalars_eval n B x y a b Hx Hy Hxa Hyb) as (p & Hp & _ & Hpe).
      destruct (IH Hxs' ys bvs Hys' Hb) as (ps & Hps & Hpse).
      exists (p :: ps). split.
      * simpl. rewrite Hp. simpl. rewrite Hps. reflexivity.
      * constructor; assumption.
Qed.

Lemma eval_loop_add_ints (ev : obj -> result obj) (ps : list obj) (cs : list Z) i acc :
  Forall2 (fun p c => ev p = Ok (PyNum NInt c)) ps cs ->
  eval_loop py_add ev (S i) ps (PyNum NInt acc) =
  Ok (PyNum NInt (fold_left Z.add cs acc)).
Proof.
  intros H. revert i acc.
  induction H as [|p c ps cs Hpc _ IH]; intros i acc; [reflexivity|].
  simpl. rewrite Hpc. simpl. apply IH.
Qed.

Lemma fold_left_add_sum (cs : list Z) (acc : Z) :
  fold_left Z.add cs acc = acc + fold_right Z.add 0 cs.
Proof.
  revert acc; induction cs as [|c cs IH]; intros acc; simpl; [lia|].
  rewrite IH. lia.
Qed.

Lemma order_scalar (x : obj) : scalar_node x -> order x = Ok 0%nat.
Proof. intros [Hx Ht]. destruct x; try discriminate; reflexivity. Qed.

(** C5. For two vectors of equal length whose elements are scalar nodes,
    [inner] returns a single [Add] node of the elementwise products; when
    every element evaluates to an int under the bindings [B], that node
    evaluates to the sum of the products of those ints. *)
Theorem inner_vectors (B : bindings) (n : nat) (xs ys : list obj) (avs bvs : list Z) :
  xs <> [] -> length xs = length ys ->
  Forall scalar_node xs -> Forall scalar_node ys ->
  Forall2 (fun x a => eval n B x = Ok (PyNum NInt a)) xs avs ->
  Forall2 (fun y b => eval n B y = Ok (PyNum NInt b)) ys bvs ->
  exists ps, inner (Tensor xs) (Tensor ys) = Ok (Add ps) /\
    length ps = length xs /\
    eval (S (S n)) B (Add ps) =
      Ok (PyNum NInt (fold_right Z.add 0 (zip_with Z.mul avs bvs))).
Proof.
  intros Hne Hlen Hxs Hys Ha Hb.
  destruct xs as [|x xs']; [contradiction|].
  destruct ys as [|y ys']; [discriminate|].
  assert (Hi : inner (Tensor (x :: xs')) (Tensor (y :: ys')) =
               inner_base (x :: xs') (y :: ys')).
  { inversion Hxs as [|? ? Hx _]; inversion Hys as [|? ? Hy _]; subst.
    simpl. rewrite (order_scalar x Hx), (order_scalar y Hy). reflexivity. }
  destruct (py_mul_pairs n B _ _ avs bvs Hxs Hys Ha Hb) as (ps & Hps & Hpe).
  exists ps. split.
  { rewrite Hi. unfold inner_base. rewrite Hps. reflexivity. }
  split.
  { apply map_res_length in Hps. rewrite Hps, length_combine, Hlen. apply Nat.min_id. }
  rewrite eval_S. unfold loop_eval.
  destruct Hpe as [|p c ps' cs Hpc Hrest]; [reflexivity|].
  cbn [eval_loop]. rewrite Hpc.
  transitivity (eval_loop py_add (eval (S n) B) 1 ps' (PyNum NInt c)); [reflexivity|].
  rewrite (eval_loop_add_ints _ _ _ 0 c Hrest), fold_left_add_sum. reflexivity.
Qed.

Lemma inner_vectors_witness :
  let B : bindings := {[ "a" := PyNum NInt 1; "b" := PyNum NInt 2; "c" := PyNum NInt 3;
                         "d" := PyNum NInt 4; "e" := PyNum NInt 5; "f" := PyNum NInt 6 ]} in
  exists ps,
    inner (Tensor [Symbol "a"; Symbol "b"; Symbol "c"])
          (Tensor [Symbol "d"; Symbol "e"; Symbol "f"]) = Ok (Add ps) /\
    length ps = 3%nat /\ eval 3 B (Add ps) = Ok (PyNum NInt 32).
Proof.
  intros B.
  destruct (inner_vectors B 1 [Symbol "a"; Symbol "b"; Symbol "c"]
              [Symbol "d"; Symbol "e"; Symbol "f"] [1; 2; 3] [4; 5; 6])
    as (ps & H1 & H2 & H3);
    [discriminate|reflexivity
    |repeat constructor|repeat constructor
    |repeat constructor; vm_compute; reflexivity
    |repeat constructor; vm_compute; reflexivity|].
  exists ps. split; [exact H1|]. split; [exact H2|]. exact H3.
Defined.

(** ** The product rule *)

Lemma fold_left_err (f : result obj -> nat -> result obj) (l : list nat) e :
  (forall j, f (Err e) j = Err e) -> fold_left f l (Err e) = Err e.
Proof. intros Hf. induction l as [|j l IH]; simpl; [reflexivity|]. rewrite Hf. exact IH. Qed.

Lemma mul_others_fold (args : list obj) (i : nat) :
  forall rest k term,
  (forall m, (m < length rest)%nat ->
     nth (k + m) args (Number NInt 0) = nth m rest (Number NInt 0)) ->
  mul_others i k rest term =
  fold_left (other_operands_step args i) (seq k (length rest)) (Ok term).
Proof.
  induction rest as [|a rest IH]; intros k term Hn; [reflexivity|].
  assert (Ha : nth k args (Number NInt 0) = a).
  { specialize (Hn 0%nat). rewrite Nat.add_0_r in Hn. apply Hn. simpl. lia. }
  assert (Hn' : forall m, (m < length rest)%nat ->
     nth (S k + m) args (Number NInt 0) = nth m rest (Number NInt 0)).
  { intros m Hm. specialize (Hn (S m)). rewrite Nat.add_succ_r in Hn.
    apply Hn. simpl. lia. }
  cbn [mul_others length seq fold_left].
  change (other_operands_step args i (Ok term) k)
    with (if (k =? i)%nat then Ok term else py_mul term (nth k args (Number NInt 0))).
  rewrite Ha.
  destruct (if (k =? i)%nat then Ok term else py_mul term a) as [t|e].
  - exact (IH (S k) t Hn').
  - symmetry. apply fold_left_err. reflexivity.
Qed.

Lemma mul_diff_loop_fold (dif : obj -> result obj) (args : list obj) :
  forall rest i deriv,
  (forall m, (m < length rest)%nat ->
     nth (i + m) args (Number NInt 0) = nth m rest (Number NInt 0)) ->
  mul_diff_loop dif args i rest deriv =
  fold_left (product_sum_step dif args) (seq i (length rest)) (Ok deriv).
Proof.
  induction rest as [|a rest IH]; intros i deriv Hn; [reflexivity|].
  assert (Ha : nth i args (Number NInt 0) = a).
  { specialize (Hn 0%nat). rewrite Nat.add_0_r in Hn. apply Hn. simpl. lia. }
  assert (Hn' : forall m, (m < length rest)%nat ->
     nth (S i + m) args (Number NInt 0) = nth m rest (Number NInt 0)).
  { intros m Hm. specialize (Hn (S m)). rewrite Nat.add_succ_r in Hn.
    apply Hn. simpl. lia. }
  cbn [mul_diff_loop length seq fold_left].
  unfold product_sum_step at 2. unfold product_term.
  unfold mbind, result_bind; cbv beta iota. rewrite Ha.
  destruct (dif a) as [d|e].
  - rewrite (mul_others_fold args i args 0 d) by (intros; reflexivity).
    destruct (fold_left (other_operands_step args i) (seq 0 (length args)) (Ok d))
      as [t|e].
    + destruct (if (i =? 0)%nat then Ok t else py_add deriv t) as [v|e].
      * exact (IH (S i) v Hn').
      * symmetry. apply fold_left_err. reflexivity.
    + symmetry. apply fold_left_err. reflexivity.
  - symmetry. apply fold_left_err. reflexivity.
Qed.

(** C2. [Multiply.diff] is the n-ary product rule [product_rule]: for
    every list of operands and every variable, the derivative of the
    product is the left-to-right sum over [i] of the derivative of operand
    [i] multiplied by every other operand unchanged.  In particular, for
    [f = x*x], [f.diff(x).eval(x=3)] is [6]. *)
Theorem multiply_diff_product_rule :
  (forall (args : list obj) (wrt : obj),
     diff (Multiply args) wrt = product_rule args wrt) /\
  exists f d, py_mul (Symbol "x") (Symbol "x") = Ok f /\
    diff f (Symbol "x") = Ok d /\
    eval 10 {[ "x" := PyNum NInt 3 ]} d = Ok (PyNum NInt 6).
Proof.
  split.
  - intros args wrt. cbn [diff]. unfold product_rule.
    apply mul_diff_loop_fold. intros; reflexivity.
  - eexists _, _. split; [reflexivity|]. split; [reflexivity|].
    vm_compute. reflexivity.
Qed.

(** ** Transpose *)

Lemma scalar_shape (o : obj) : scalar_node o -> shape o = Ok [].
Proof. intros [Hn Ht]. destruct o; try discriminate; reflexivity. Qed.

Lemma shape_nil_scalar (o : obj) : shape o = Ok [] -> scalar_node o.
Proof.
  destruct o as [| | | | | |args| | | | | |]; cbn [shape is_node];
    intros H; try discriminate; try (split; reflexivity).
  destruct args as [|a args]; [discriminate|].
  cbn in H. destruct (shape a); discriminate.
Qed.

Lemma express_node (o : obj) : is_node o = true -> express o = Ok o.
Proof. intros H. destruct o; try discriminate; reflexivity. Qed.

Lemma tensor_check_same (es : list obj) (s : list nat) :
  es <> [] -> Forall (fun e => shape e = Ok s) es ->
  tensor_check es = Ok (Tensor es).
Proof.
  intros Hne Hs. destruct es as [|e es']; [congruence|].
  assert (Hmap : map_res shape (e :: es') = Ok (map (fun _ => s) (e :: es'))).
  { apply map_res_all_ok. clear Hne. induction Hs; constructor; auto. }
  assert (Hall : forallb (list_nat_eqb s) (map (fun _ => s) (e :: es')) = true).
  { apply forallb_forall. intros x Hx. apply in_map_iff in Hx as (? & <- & _).
    unfold list_nat_eqb. apply bool_decide_eq_true. reflexivity. }
  unfold tensor_check. rewrite Hmap. unfold mbind, result_bind; cbv beta iota.
  cbn [map] in *. rewrite Hall. reflexivity.
Qed.

Lemma shape_row (c : list obj) :
  c <> [] -> Forall scalar_node c -> shape (Tensor c) = Ok [length c].
Proof.
  intros Hne Hc. destruct c as [|z zs]; [congruence|].
  inversion Hc as [|? ? Hz _]; subst.
  cbn [shape]. rewrite (scalar_shape z Hz). reflexivity.
Qed.

Lemma tensor_check_scalars (c : list obj) :
  c <> [] -> Forall scalar_node c -> tensor_check c = Ok (Tensor c).
Proof.
  intros Hne Hc. apply (tensor_check_same c []); [exact Hne|].
  eapply Forall_impl; [exact Hc|]. exact scalar_shape.
Qed.

Lemma tensor_check_rows (rows : list (list obj)) (m : nat) :
  rows <> [] -> (0 < m)%nat -> Forall (fun r => length r = m) rows ->
  Forall (Forall scalar_node) rows ->
  tensor_check (map Tensor rows) = Ok (Tensor (map Tensor rows)).
Proof.
  intros Hne Hm Hr Hs. apply (tensor_check_same _ [m]).
  - destruct rows; [congruence|discriminate].
  - clear Hne. induction Hr as [|r rs Hlen _ IH]; constructor.
    + inversion Hs as [|? ? Hs0 _]; subst.
      rewrite shape_row; [reflexivity| |exact Hs0].
      intros ->. simpl in Hm. lia.
    + apply IH. inversion Hs; assumption.
Qed.

Lemma fold_min_const (l : list nat) (k : nat) :
  Forall (fun x => x = k) l -> fold_left Nat.min l k = k.
Proof. induction 1 as [|x l Hx _ IH]; simpl; [reflexivity|]. subst x. rewrite Nat.min_id. exact IH. Qed.

Lemma min_len_rect (rows : list (list obj)) (m : nat) :
  rows <> [] -> Forall (fun r => length r = m) rows -> min_len rows = m.
Proof.
  intros Hne Hr. destruct rows as [|r rs]; [congruence|].
  inversion Hr as [|? ? Hr0 Hrs]; subst. simpl.
  apply fold_min_const. clear Hr. induction Hrs; constructor; auto.
Qed.

Lemma nth_map_seq {A} (l : list A) (d : A) :
  map (fun j => nth j l d) (seq 0 (length l)) = l.
Proof.
  induction l as [|a l IH]; [reflexivity|].
  cbn [length seq map nth]. f_equal.
  rewrite <- seq_shift, map_map. exact IH.
Qed.

Lemma zip_star_rect (rows : list (list obj)) (m : nat) :
  rows <> [] -> Forall (fun r => length r = m) rows ->
  zip_star rows = map (fun j => map (fun r => nth j r (PyOther "")) rows) (seq 0 m).
Proof. intros Hne Hr. unfold zip_star. rewrite (min_len_rect rows m Hne Hr). reflexivity. Qed.

Lemma zip_star_shape (rows : list (list obj)) (m : nat) :
  rows <> [] -> (0 < m)%nat -> Forall (fun r => length r = m) rows ->
  zip_star rows <> [] /\ Forall (fun c => length c = length rows) (zip_star rows).
Proof.
  intros Hne Hm Hr. rewrite (zip_star_rect rows m Hne Hr). split.
  - destruct m; [lia|]. discriminate.
  - apply List.Forall_forall. intros c Hc. apply in_map_iff in Hc as (j & <- & _).
    apply length_map.
Qed.

Lemma zip_star_scalars (rows : list (list obj)) (m : nat) :
  rows <> [] -> Forall (fun r => length r = m) rows ->
  Forall (Forall scalar_node) rows -> Forall (Forall scalar_node) (zip_star rows).
Proof.
  intros Hne Hr Hs. rewrite (zip_star_rect rows m Hne Hr).
  apply List.Forall_forall. intros c Hc. apply in_map_iff in Hc as (j & <- & Hj).
  apply in_seq in Hj.
  apply List.Forall_forall. intros x Hx. apply in_map_iff in Hx as (r & <- & Hrin).
  rewrite List.Forall_forall in Hr, Hs.
  specialize (Hs r Hrin). rewrite List.Forall_forall in Hs.
  apply Hs, nth_In. rewrite (Hr r Hrin). lia.
Qed.

Lemma zip_star_involutive (rows : list (list obj)) (m : nat) :
  rows <> [] -> (0 < m)%nat -> Forall (fun r => length r = m) rows ->
  zip_star (zip_star rows) = rows.
Proof.
  intros Hne Hm Hr.
  destruct (zip_star_shape rows m Hne Hm Hr) as [Hcne Hc].
  rewrite (zip_star_rect (zip_star rows) (length rows) Hcne Hc).
  rewrite (zip_star_rect rows m Hne Hr).
  transitivity (map (fun i => nth i rows []) (seq 0 (length rows)));
    [|apply nth_map_seq].
  apply map_ext_in. intros i Hi. apply in_seq in Hi.
  rewrite map_map.
  assert (Hri : length (nth i rows []) = m).
  { rewrite List.Forall_forall in Hr. apply Hr, nth_In. lia. }
  transitivity (map (fun j => nth j (nth i rows []) (PyOther "")) (seq 0 m)).
  - apply map_ext_in. intros j Hj.
    pose proof (map_nth (fun r => nth j r (PyOther "")) rows [] i) as E.
    cbv beta in E. rewrite <- E. apply nth_indep. rewrite length_map. lia.
  - rewrite <- Hri. apply nth_map_seq.
Qed.

Lemma map_res_row_items (rows : list (list obj)) :
  map_res row_items (map Tensor rows) = Ok rows.
Proof. apply map_res_all_ok. induction rows; constructor; [reflexivity|assumption]. Qed.

Lemma map_res_express_scalars (c : list obj) :
  Forall scalar_node c -> map_res express c = Ok c.
Proof.
  intros Hc. apply map_res_all_ok. induction Hc as [|x c [Hx _] _ IH]; constructor; auto.
  apply express_node, Hx.
Qed.

Lemma map_res_express_tuples (cols : list (list obj)) :
  Forall (fun c => c <> []) cols -> Forall (Forall scalar_node) cols ->
  map_res express (map PyTuple cols) = Ok (map Tensor cols).
Proof.
  intros Hne Hs. apply map_res_all_ok.
  induction Hne as [|c cols Hc _ IH]; constructor.
  - inversion Hs as [|? ? Hs0 _]; subst. cbn [express is_node].
    rewrite (map_res_express_scalars c Hs0). apply tensor_check_scalars; assumption.
  - apply IH. inversion Hs; assumption.
Qed.

Lemma transpose_rect (rows : list (list obj)) (m : nat) :
  rows <> [] -> (0 < m)%nat -> Forall (fun r => length r = m) rows ->
  Forall (Forall scalar_node) rows ->
  transpose (Tensor (map Tensor rows)) = Ok (Tensor (map Tensor (zip_star rows))).
Proof.
  intros Hne Hm Hr Hs.
  assert (Hord : order (Tensor (map Tensor rows)) = Ok 2%nat).
  { destruct rows as [|r rs]; [congruence|].
    inversion Hr as [|? ? Hr0 _]; inversion Hs as [|? ? Hs0 _]; subst.
    destruct r as [|z zs]; [simpl in Hm; lia|].
    inversion Hs0 as [|? ? Hz _]; subst.
    cbn [order map]. rewrite (order_scalar z Hz). reflexivity. }
  destruct (zip_star_shape rows m Hne Hm Hr) as [Hcne Hc].
  assert (Hcs := zip_star_scalars rows m Hne Hr Hs).
  cbn [transpose]. rewrite Hord.
  unfold mbind, result_bind; cbv beta iota. cbn [Nat.ltb Nat.leb Nat.eqb].
  rewrite map_res_row_items. cbv beta iota.
  unfold tensor_new. rewrite map_res_express_tuples.
  - apply (tensor_check_rows _ (length rows)); auto.
    destruct rows; [congruence|simpl; lia].
  - eapply Forall_impl; [exact Hc|]. intros c Hlen ->.
    destruct rows; [congruence|discriminate].
  - exact Hcs.
Qed.

Lemma order_zero_scalar (o : obj) : order o = Ok 0%nat -> scalar_node o.
Proof.
  destruct o as [| | | | | |args| | | | | |]; cbn [order is_node];
    intros H; try discriminate; try (split; reflexivity).
  destruct args as [|a args]; [discriminate|].
  apply bind_ok_inv in H as (k & _ & H). discriminate.
Qed.

Lemma row_of_shape (e : obj) (m : nat) :
  shape e = Ok [m] -> wf e = true ->
  exists zs, e = Tensor zs /\ length zs = m /\ Forall scalar_node zs.
Proof.
  destruct e as [| | | | | |zs| | | | | |]; cbn [shape is_node];
    intros Hs Hw; try discriminate.
  destruct zs as [|z zs']; [discriminate|].
  apply bind_ok_inv in Hs as (sz & Hz & Heq). injection Heq as Hlen ->.
  exists (z :: zs'). split; [reflexivity|]. split; [exact Hlen|].
  cbn [wf] in Hw. apply andb_true_iff in Hw as [Hc _].
  destruct (tensor_check (z :: zs')) as [t|err] eqn:Et; [|discriminate].
  apply tensor_check_ok in Et as (_ & _ & s & Hall).
  assert (s = []) as ->.
  { inversion Hall as [|? ? Hz' _]; subst. rewrite Hz in Hz'. injection Hz' as <-. reflexivity. }
  eapply Forall_impl; [exact Hall|]. exact shape_nil_scalar.
Qed.

Lemma rows_of (es : list obj) (m : nat) :
  Forall (fun e => shape e = Ok [m]) es -> forallb wf es = true ->
  exists rows, es = map Tensor rows /\
    Forall (fun r => length r = m) rows /\ Forall (Forall scalar_node) rows.
Proof.
  induction 1 as [|e es He _ IH]; intros Hw.
  - exists []. split; [reflexivity|]. split; constructor.
  - cbn [forallb] in Hw. apply andb_true_iff in Hw as [Hwe Hws].
    destruct (row_of_shape e m He Hwe) as (zs & -> & Hlen & Hzs).
    destruct (IH Hws) as (rows & -> & Hr & Hs).
    exists (zs :: rows). split; [reflexivity|]. split; constructor; assumption.
Qed.

Lemma wf_order2 (T : obj) :
  wf T = true -> order T = Ok 2%nat ->
  exists rows m, T = Tensor (map Tensor rows) /\ rows <> [] /\ (0 < m)%nat /\
    Forall (fun r => length r = m) rows /\ Forall (Forall scalar_node) rows.
Proof.
  destruct T as [| | | | | |xs| | | | | |]; cbn [order is_node];
    intros Hw Ho; try discriminate.
  destruct xs as [|x xs']; [discriminate|].
  apply bind_ok_inv in Ho as (k & Hx & Hk). injection Hk as ->.
  destruct x as [| | | | | |ys| | | | | |]; cbn [order is_node] in Hx; try discriminate.
  destruct ys as [|y ys']; [discriminate|].
  apply bind_ok_inv in Hx as (k & Hy & Hk). injection Hk as ->.
  apply order_zero_scalar in Hy.
  cbn [wf] in Hw. apply andb_true_iff in Hw as [Hc Hws].
  destruct (tensor_check (Tensor (y :: ys') :: xs')) as [t|err] eqn:Et; [|discriminate].
  apply tensor_check_ok in Et as (_ & _ & s & Hall).
  assert (Hsx : shape (Tensor (y :: ys')) = Ok [length (y :: ys')]).
  { cbn [shape]. rewrite (scalar_shape y Hy). reflexivity. }
  assert (s = [length (y :: ys')]) as ->.
  { inversion Hall as [|? ? Hx' _]; subst. rewrite Hsx in Hx'.
    injection Hx' as <-. reflexivity. }
  destruct (rows_of _ _ Hall Hws) as (rows & Hrows & Hr & Hs).
  exists rows, (length (y :: ys')). split; [rewrite Hrows; reflexivity|].
  split; [intros ->; discriminate|]. split; [simpl; lia|]. split; assumption.
Qed.

(** C8. Transpose is its own inverse on matrices: for every order-2 Tensor
    [T] built by the constructors, [T.T] is a Tensor whose transpose is [T]
    again, so [T.T.T.eval(B)] and [T.eval(B)] are the same result for
    every binding [B] (and every recursion depth). *)
Theorem transpose_involutive (T : obj) :
  wf T = true -> order T = Ok 2%nat ->
  exists T', transpose T = Ok T' /\ transpose T' = Ok T /\
    forall (fuel : nat) (B : bindings),
      (t1 ← transpose T; t2 ← transpose t1; eval fuel B t2) = eval fuel B T.
Proof.
  intros Hw Ho.
  destruct (wf_order2 T Hw Ho) as (rows & m & -> & Hne & Hm & Hr & Hs).
  destruct (zip_star_shape rows m Hne Hm Hr) as [Hcne Hc].
  assert (Hcs := zip_star_scalars rows m Hne Hr Hs).
  assert (H1 := transpose_rect rows m Hne Hm Hr Hs).
  assert (H2 : transpose (Tensor (map Tensor (zip_star rows))) =
               Ok (Tensor (map Tensor rows))).
  { rewrite (transpose_rect (zip_star rows) (length rows)); auto.
    - rewrite (zip_star_involutive rows m); auto.
    - destruct rows; [congruence|simpl; lia]. }
  exists (Tensor (map Tensor (zip_star rows))).
  split; [exact H1|]. split; [exact H2|].
  intros fuel B. rewrite H1. unfold mbind, result_bind; cbv beta iota.
  rewrite H2. reflexivity.
Qed.

Lemma transpose_involutive_witness :
  let T := Tensor [Tensor [Symbol "a"; Symbol "b"; Symbol "c"];
                   Tensor [Symbol "d"; Symbol "e"; Symbol "f"]] in
  exists T', transpose T = Ok T' /\ transpose T' = Ok T /\
    forall (fuel : nat) (B : bindings),
      (t1 ← transpose T; t2 ← transpose t1; eval fuel B t2) = eval fuel B T.
Proof.
  intros T. apply transpose_involutive; vm_compute; reflexivity.
Defined.

(** * Further properties of the code *)

(** ** Results of the operators are nodes *)

(** Takes apart a hypothesis [m = Ok r] built from binds and conditionals. *)
Ltac inv_res H :=
  repeat match type of H with
  | Ok _ = Ok _ => injection H as H; subst
  | Err _ = Ok _ => discriminate H
  | (Ok _ ≫= _) = Ok _ => cbn [mbind result_bind] in H
  | (Err _ ≫= _) = Ok _ => discriminate H
  | (?m ≫= _) = Ok _ =>
      let x := fresh "x" in let Hx := fresh "Hx" in
      destruct m as [x|?] eqn:Hx; [cbn [mbind result_bind] in H|discriminate H]
  | (if ?c then _ else _) = Ok _ => destruct c
  end.

Lemma tensor_new_node args r : tensor_new args = Ok r -> is_node r = true.
Proof. intros H. apply tensor_new_ok in H as (es & -> & _). reflexivity. Qed.

Lemma py_neg_node a r : is_node a = true -> py_neg a = Ok r -> is_node r = true.
Proof.
  intros Ha H. destruct a; try discriminate; cbn [py_neg] in H; inv_res H;
    try reflexivity; eapply tensor_new_node; eassumption.
Qed.

Lemma add_by_node a b r :
  is_node a = true -> is_node b = true -> add_by a b = Ok r -> is_node r = true.
Proof.
  intros Ha Hb H. destruct b; try discriminate; cbn [add_by] in H;
    rewrite ?Ha in H; destruct a; try discriminate; inv_res H;
    try reflexivity; eapply tensor_new_node; eassumption.
Qed.

Lemma py_add_node a b r :
  is_node a = true -> is_node b = true -> py_add a b = Ok r -> is_node r = true.
Proof.
  intros Ha Hb H. destruct a as [| | | | | |xs| | | | | |]; try discriminate;
    try (eapply add_by_node; [exact Ha|exact Hb|exact H]).
  cbn [py_add] in H. destruct b; try discriminate; inv_res H;
    try reflexivity; eapply tensor_new_node; eassumption.
Qed.

Lemma mul_by_node a b r :
  is_node a = true -> is_node b = true -> mul_by a b = Ok r -> is_node r = true.
Proof.
  intros Ha Hb H. destruct b; try discriminate; destruct a as [| | | | |w [a|]| | | | | | |];
    try discriminate; cbn [mul_by] in H; inv_res H;
    try reflexivity; eapply tensor_new_node; eassumption.
Qed.

Lemma py_mul_node a b r :
  is_node a = true -> is_node b = true -> py_mul a b = Ok r -> is_node r = true.
Proof.
  intros Ha Hb H. destruct a as [| | | | | |xs| | | | | |]; try discriminate;
    try (eapply mul_by_node; [exact Ha|exact Hb|exact H]).
  cbn [py_mul] in H. inv_res H; try reflexivity; eapply tensor_new_node; eassumption.
Qed.

Lemma diff_arg_node o w d : diff o w = Ok d -> is_node o = true.
Proof. destruct o; try reflexivity; discriminate. Qed.

Lemma number_diff_node w r : number_diff w = Ok r -> is_node r = true.
Proof.
  destruct w; cbn [number_diff]; intros H; inv_res H; try reflexivity.
  eapply tensor_new_node; eassumption.
Qed.

Lemma symbol_diff_node n w r : symbol_diff n w = Ok r -> is_node r = true.
Proof.
  destruct w; cbn [symbol_diff]; intros H; inv_res H; try reflexivity.
  eapply tensor_new_node; eassumption.
Qed.

Lemma mul_others_node i args :
  Forall (fun a => is_node a = true) args ->
  forall j term r, is_node term = true -> mul_others i j args term = Ok r ->
  is_node r = true.
Proof.
  induction 1 as [|a args Ha _ IH]; intros j term r Ht H.
  - cbn in H. injection H as <-. exact Ht.
  - cbn [mul_others] in H.
    destruct (if (j =? i)%nat then Ok term else py_mul term a) as [t|e] eqn:Et;
      [|discriminate].
    apply (IH (S j) t r); [|exact H].
    destruct (j =? i)%nat; [injection Et as <-; exact Ht|].
    eapply py_mul_node; [exact Ht|exact Ha|exact Et].
Qed.

Lemma add_diff_loop_node (dif : obj -> result obj) rest :
  Forall (fun a => forall d, dif a = Ok d -> is_node d = true) rest ->
  forall i deriv r, is_node deriv = true ->
  add_diff_loop dif i rest deriv = Ok r -> is_node r = true.
Proof.
  induction 1 as [|a rest Ha _ IH]; intros i deriv r Hd H.
  - cbn in H. injection H as <-. exact Hd.
  - cbn [add_diff_loop] in H.
    destruct (dif a) as [d|e] eqn:Eda; [|discriminate]. cbn [mbind result_bind] in H.
    destruct (if (i =? 0)%nat then Ok d else py_add deriv d) as [v|e] eqn:Ev;
      [|discriminate].
    apply (IH (S i) v r); [|exact H].
    destruct (i =? 0)%nat; [injection Ev as <-; exact (Ha d eq_refl)|].
    eapply py_add_node; [exact Hd|exact (Ha d eq_refl)|exact Ev].
Qed.

Lemma mul_diff_loop_args (dif : obj -> result obj) args rest :
  forall i deriv r, mul_diff_loop dif args i rest deriv = Ok r ->
  Forall (fun a => exists d, dif a = Ok d) rest.
Proof.
  induction rest as [|a rest IH]; intros i deriv r H; constructor.
  - cbn [mul_diff_loop] in H. destruct (dif a) as [d|e]; [eauto|discriminate].
  - cbn [mul_diff_loop] in H. destruct (dif a) as [d|e]; [|discriminate].
    cbn [mbind result_bind] in H.
    destruct (mul_others i 0 args d) as [t|e]; [|discriminate].
    cbn [mbind result_bind] in H.
    destruct (if (i =? 0)%nat then Ok t else py_add deriv t) as [v|e]; [|discriminate].
    exact (IH (S i) v r H).
Qed.

Lemma mul_diff_loop_node (dif : obj -> result obj) args rest :
  Forall (fun a => is_node a = true) args ->
  Forall (fun a => forall d, dif a = Ok d -> is_node d = true) rest ->
  forall i deriv r, is_node deriv = true ->
  mul_diff_loop dif args i rest deriv = Ok r -> is_node r = true.
Proof.
  intros Hargs. induction 1 as [|a rest Ha _ IH]; intros i deriv r Hd H.
  - cbn in H. injection H as <-. exact Hd.
  - cbn [mul_diff_loop] in H.
    destruct (dif a) as [d|e] eqn:Eda; [|discriminate]. cbn [mbind result_bind] in H.
    destruct (mul_others i 0 args d) as [t|e] eqn:Et; [|discriminate].
    cbn [mbind result_bind] in H.
    assert (Htn : is_node t = true) by exact (mul_others_node i args Hargs 0 d t (Ha d eq_refl) Et).
    destruct (if (i =? 0)%nat then Ok t else py_add deriv t) as [v|e] eqn:Ev;
      [|discriminate].
    apply (IH (S i) v r); [|exact H].
    destruct (i =? 0)%nat; [injection Ev as <-; exact Htn|].
    eapply py_add_node; [exact Hd|exact Htn|exact Ev].
Qed.

Lemma diff_node (o : obj) : forall w d, diff o w = Ok d -> is_node d = true.
Proof.
  induction o as [t v|n|a IH|args IH|args IH|w0 a IHw IHa|args IH| | |xs Hxs|xs Hxs|xs Hxs| ]
    using obj_ind_nested; intros w d H; try discriminate.
  - exact (number_diff_node w d H).
  - exact (symbol_diff_node n w d H).
  - cbn [diff] in H. apply bind_ok_inv in H as (x & Hx & H).
    exact (py_neg_node x d (IH w x Hx) H).
  - cbn [diff] in H. refine (add_diff_loop_node _ args _ 0 (Number NInt 0) d eq_refl H).
    eapply Forall_impl; [exact IH|]. intros a Ha d' Hd'. exact (Ha w d' Hd').
  - cbn [diff] in H.
    assert (Hargs : Forall (fun a => is_node a = true) args).
    { eapply Forall_impl; [exact (mul_diff_loop_args _ _ _ 0 _ d H)|].
      intros a [d' Hd']. exact (diff_arg_node a w d' Hd'). }
    refine (mul_diff_loop_node _ args args Hargs _ 0 (Number NInt 0) d eq_refl H).
    eapply Forall_impl; [exact IH|]. intros a Ha d' Hd'. exact (Ha w d' Hd').
  - cbn [diff] in H. destruct w; inv_res H; try reflexivity.
    eapply tensor_new_node; eassumption.
  - cbn [diff] in H. apply bind_ok_inv in H as (es & _ & H).
    eapply tensor_new_node; eassumption.
Qed.

(** X1. Whenever [diff] succeeds it returns an expression node, never a raw
    Python value, so its result again has [diff] and [eval]. *)
Theorem diff_result_node (o w d : obj) : diff o w = Ok d -> is_node d = true.
Proof. exact (diff_node o w d). Qed.

Lemma diff_result_node_witness :
  exists d, diff (Multiply [Symbol "x"; Symbol "y"; Symbol "x"]) (Symbol "x") = Ok d /\
            is_node d = true.
Proof.
  eexists. split; [reflexivity|].
  apply (diff_result_node (Multiply [Symbol "x"; Symbol "y"; Symbol "x"]) (Symbol "x")).
  reflexivity.
Defined.

(** ** Arithmetic on int-valued nodes *)

Lemma eval_int_not_tensor n B o t v :
  eval n B o = Ok (PyNum t v) -> is_tensor o = false.
Proof.
  destruct n as [|n]; [discriminate|]. destruct o; intros H; try reflexivity.
  rewrite eval_S in H. apply bind_ok_inv in H as (vs & _ & H).
  destruct (existsb is_node vs); [|discriminate].
  apply tensor_new_ok in H as (es & Heq & _). discriminate.
Qed.

Lemma add_by_nodes x y :
  is_node x = true -> is_node y = true -> is_tensor y = false ->
  add_by x y = if eq_int y 0 then Ok x else if eq_int x 0 then Ok y else Ok (Add [x; y]).
Proof. intros Hx Hy Ht. destruct x; try discriminate; destruct y; try discriminate; reflexivity. Qed.

Lemma sub_by_nodes x y :
  is_node x = true -> is_node y = true -> is_tensor y = false ->
  sub_by x y = (nb ← py_neg y; Ok (Add [x; nb])).
Proof. intros Hx Hy Ht. destruct x; try discriminate; destruct y; try discriminate; reflexivity. Qed.

Lemma py_neg_scalar y :
  is_node y = true -> is_tensor y = false ->
  py_neg y = if eq_int y 0 then Ok y else Ok (Negative y).
Proof. intros Hy Ht. destruct y; try discriminate; reflexivity. Qed.

Lemma py_add_not_tensor x y : is_tensor x = false -> py_add x y = add_by x y.
Proof. destruct x; try discriminate; reflexivity. Qed.

Lemma py_sub_not_tensor x y : is_tensor x = false -> py_sub x y = sub_by x y.
Proof. destruct x; try discriminate; reflexivity. Qed.

Lemma eval_zero_inv n B y b :
  is_node y = true -> eq_int y 0 = true -> eval n B y = Ok (PyNum NInt b) -> b = 0.
Proof.
  intros Hy E H. destruct (node_eq_int_number y 0 Hy E) as [t ->].
  apply eval_number_inv in H. injection H as _ <-. reflexivity.
Qed.

Lemma py_add_ints_eval n B x y a b :
  is_node x = true -> is_node y = true ->
  eval n B x = Ok (PyNum NInt a) -> eval n B y = Ok (PyNum NInt b) ->
  exists r, py_add x y = Ok r /\ is_node r = true /\
    eval (S n) B r = Ok (PyNum NInt (a + b)).
Proof.
  intros Hx Hy Ha Hb.
  rewrite py_add_not_tensor by exact (eval_int_not_tensor _ _ _ _ _ Ha).
  rewrite add_by_nodes by first [assumption | exact (eval_int_not_tensor _ _ _ _ _ Hb)].
  destruct (eq_int y 0) eqn:Ey.
  { exists x. split; [reflexivity|]. split; [exact Hx|].
    rewrite (eval_zero_inv n B y b Hy Ey Hb), Z.add_0_r. apply eval_ok_S; exact Ha. }
  destruct (eq_int x 0) eqn:Ex.
  { exists y. split; [reflexivity|]. split; [exact Hy|].
    rewrite (eval_zero_inv n B x a Hx Ex Ha). apply eval_ok_S; exact Hb. }
  exists (Add [x; y]). split; [reflexivity|]. split; [reflexivity|].
  rewrite eval_S. unfold loop_eval. simpl. rewrite Ha. simpl. rewrite Hb. reflexivity.
Qed.

Lemma py_neg_int_eval n B d v :
  is_node d = true -> eval n B d = Ok (PyNum NInt v) ->
  exists r, py_neg d = Ok r /\ is_node r = true /\
    eval (S n) B r = Ok (PyNum NInt (- v)).
Proof.
  intros Hd Hv.
  rewrite py_neg_scalar by first [assumption | exact (eval_int_not_tensor _ _ _ _ _ Hv)].
  destruct (eq_int d 0) eqn:E.
  { exists d. split; [reflexivity|]. split; [exact Hd|].
    assert (Hv0 := eval_zero_inv n B d v Hd E Hv). subst v.
    apply eval_ok_S; exact Hv. }
  exists (Negative d). split; [reflexivity|]. split; [reflexivity|].
  rewrite eval_S. rewrite Hv. reflexivity.
Qed.

Lemma eval_loop_mul_ints (ev : obj -> result obj) (ps : list obj) (cs : list Z) i acc :
  Forall2 (fun p c => ev p = Ok (PyNum NInt c)) ps cs ->
  eval_loop py_mul ev (S i) ps (PyNum NInt acc) =
  Ok (PyNum NInt (fold_left Z.mul cs acc)).
Proof.
  intros H. revert i acc.
  induction H as [|p c ps cs Hpc _ IH]; intros i acc; [reflexivity|].
  simpl. rewrite Hpc. simpl. apply IH.
Qed.

Lemma fold_left_mul_prod (cs : list Z) (acc : Z) :
  fold_left Z.mul cs acc = acc * fold_right Z.mul 1 cs.
Proof.
  revert acc; induction cs as [|c cs IH]; intros acc; simpl; [lia|].
  rewrite IH. lia.
Qed.

(** X2. [Add( *args).eval(B)] is the sum and [Multiply( *args).eval(B)] the
    product of the values of the operands, when these are ints; the empty
    [Add] evaluates to [0] and the empty [Multiply] to [1]. *)
Theorem add_multiply_eval (n : nat) (B : bindings) (args : list obj) (vs : list Z) :
  Forall2 (fun a v => eval n B a = Ok (PyNum NInt v)) args vs ->
  eval (S n) B (Add args) = Ok (PyNum NInt (fold_right Z.add 0 vs)) /\
  eval (S n) B (Multiply args) = Ok (PyNum NInt (fold_right Z.mul 1 vs)).
Proof.
  intros H. rewrite !eval_S. unfold loop_eval.
  destruct H as [|a v args vs Hav Hrest]; [split; reflexivity|].
  split; cbn [eval_loop]; rewrite Hav.
  - transitivity (eval_loop py_add (eval n B) 1 args (PyNum NInt v)); [reflexivity|].
    rewrite (eval_loop_add_ints _ _ _ 0 v Hrest), fold_left_add_sum. reflexivity.
  - transitivity (eval_loop py_mul (eval n B) 1 args (PyNum NInt v)); [reflexivity|].
    rewrite (eval_loop_mul_ints _ _ _ 0 v Hrest), fold_left_mul_prod. reflexivity.
Qed.

Lemma add_multiply_eval_witness :
  let B : bindings := {[ "x" := PyNum NInt 2; "y" := PyNum NInt 5 ]} in
  eval 2 B (Add [Symbol "x"; Number NInt 3; Symbol "y"]) = Ok (PyNum NInt 10) /\
  eval 2 B (Multiply [Symbol "x"; Number NInt 3; Symbol "y"]) = Ok (PyNum NInt 30).
Proof.
  intros B.
  apply (add_multiply_eval 1 B [Symbol "x"; Number NInt 3; Symbol "y"] [2; 3; 5]).
  repeat constructor; vm_compute; reflexivity.
Defined.

Lemma sub_scalar_eval (n : nat) (B : bindings) (x y : obj) (a b : Z) :
  is_node x = true -> is_node y = true ->
  eval n B x = Ok (PyNum NInt a) -> eval n B y = Ok (PyNum NInt b) ->
  exists ny, py_sub x y = Ok (Add [x; ny]) /\
    (eq_int y 0 = true -> ny = y) /\
    eval (S (S n)) B (Add [x; ny]) = Ok (PyNum NInt (a - b)).
Proof.
  intros Hx Hy Ha Hb.
  assert (Hty := eval_int_not_tensor _ _ _ _ _ Hb).
  rewrite py_sub_not_tensor by exact (eval_int_not_tensor _ _ _ _ _ Ha).
  rewrite sub_by_nodes, py_neg_scalar by assumption.
  destruct (eq_int y 0) eqn:Ey.
  - exists y. split; [reflexivity|]. split; [reflexivity|].
    assert (b = 0) as -> by exact (eval_zero_inv n B y b Hy Ey Hb).
    rewrite eval_S. unfold loop_eval. cbn [eval_loop]. rewrite (eval_ok_S _ _ _ _ Ha).
    cbn [mbind result_bind Nat.eqb]. rewrite (eval_ok_S _ _ _ _ Hb).
    cbn [mbind result_bind Nat.eqb].
    transitivity (Ok (PyNum NInt (a + 0)) : result obj); [reflexivity|].
    rewrite Z.add_0_r, Z.sub_0_r. reflexivity.
  - exists (Negative y). split; [reflexivity|]. split; [discriminate|].
    rewrite eval_S. unfold loop_eval. cbn [eval_loop]. rewrite (eval_ok_S _ _ _ _ Ha).
    cbn [mbind result_bind Nat.eqb]. rewrite eval_S, Hb.
    cbn [mbind result_bind Nat.eqb]. rewrite <- Z.add_opp_r. reflexivity.
Qed.



Lemma eval_lift n m B o r : (n <= m)%nat -> eval n B o = Ok r -> eval m B o = Ok r.
Proof. intros Hle H. rewrite (eval_fuel_le n m B o Hle); [exact H|]. rewrite H; discriminate. Qed.

Lemma add_diff_loop_ints n B w rest vs :
  Forall2 (fun a v => exists d, diff a w = Ok d /\ eval n B d = Ok (PyNum NInt v)) rest vs ->
  forall i k deriv acc, (n <= k)%nat -> is_node deriv = true ->
  eval k B deriv = Ok (PyNum NInt acc) ->
  exists r, add_diff_loop (fun a => diff a w) (S i) rest deriv = Ok r /\
    eval (k + length rest) B r = Ok (PyNum NInt (fold_left Z.add vs acc)).
Proof.
  induction 1 as [|a v rest vs (d & Hd & Hdv) _ IH]; intros i k deriv acc Hk Hn He.
  - exists deriv. split; [reflexivity|]. rewrite Nat.add_0_r. exact He.
  - destruct (py_add_ints_eval k B deriv d acc v Hn (diff_node a w d Hd) He
                (eval_lift n k B d _ Hk Hdv)) as (r & Hr & Hrn & Hre).
    destruct (IH (S i) (S k) r (acc + v) ltac:(lia) Hrn Hre) as (r' & Hr' & Hr'e).
    exists r'. split.
    + cbn [add_diff_loop]. rewrite Hd. cbn [mbind result_bind Nat.eqb]. rewrite Hr.
      exact Hr'.
    + cbn [length]. rewrite Nat.add_succ_r. exact Hr'e.
Qed.

(** X4. [diff] is linear on sums and negations: when the derivatives of the
    operands of [Add( *args)] evaluate to ints, [Add( *args).diff(w)]
    evaluates to their sum (to [0] for no operands); when [a.diff(w)]
    evaluates to the int [v], [(-a).diff(w)] evaluates to [-v]. *)
Theorem diff_linear (n : nat) (B : bindings) (w : obj) :
  (forall args vs,
     Forall2 (fun a v => exists d, diff a w = Ok d /\ eval n B d = Ok (PyNum NInt v))
       args vs ->
     exists r, diff (Add args) w = Ok r /\
       eval (S n + length args) B r = Ok (PyNum NInt (fold_right Z.add 0 vs))) /\
  (forall a d v, diff a w = Ok d -> eval n B d = Ok (PyNum NInt v) ->
     exists r, diff (Negative a) w = Ok r /\ eval (S n) B r = Ok (PyNum NInt (- v))).
Proof.
  split.
  - intros args vs H. destruct H as [|a v rest vs (d & Hd & Hdv) Hrest].
    + exists (Number NInt 0). split; reflexivity.
    + destruct (add_diff_loop_ints n B w rest vs Hrest 0 n d v (le_n n)
                  (diff_node a w d Hd) Hdv) as (r & Hr & Hre).
      exists r. split.
      * cbn [diff add_diff_loop]. rewrite Hd. cbn [mbind result_bind Nat.eqb]. exact Hr.
      * apply (eval_lift (n + length rest)); [cbn [length]; lia|].
        rewrite Hre, fold_left_add_sum. reflexivity.
  - intros a d v Hd Hv.
    destruct (py_neg_int_eval n B d v (diff_node a w d Hd) Hv) as (r & Hr & _ & Hre).
    exists r. split; [|exact Hre]. cbn [diff]. rewrite Hd. exact Hr.
Qed.

Lemma diff_linear_witness :
  exists r, diff (Add [Symbol "x"; Number NInt 3; Symbol "x"]) (Symbol "x") = Ok r /\
    eval 5 (∅ : bindings) r = Ok (PyNum NInt 2).
Proof.
  destruct (diff_linear 1 ∅ (Symbol "x")) as [H _].
  destruct (H [Symbol "x"; Number NInt 3; Symbol "x"] [1; 0; 1]) as (r & H1 & H2);
    [repeat constructor; eexists; split; reflexivity|].
  exists r. split; [exact H1|exact H2].
Defined.

(** ** Nested derivatives *)

Lemma diff_derivative_scalar w w' a :
  is_tensor w = false -> diff (Derivative w' a) w = Ok (Derivative w (Some (Derivative w' a))).
Proof. destruct w; try discriminate; reflexivity. Qed.

(** X5. A [Derivative] whose argument is itself a [Derivative] (applied or
    bare), taken with respect to a non-Tensor, never evaluates: its
    [eval] differentiates the inner node, which rebuilds the same node, so
    evaluation recurses until [RecursionError] at every depth.  This is the
    node [d * (d * f)] builds for a bare [d]. *)
Theorem nested_derivative_diverges (fuel : nat) (B : bindings) (w w' : obj) (a : option obj) :
  is_tensor w = false ->
  eval fuel B (Derivative w (Some (Derivative w' a))) = Err RecursionError.
Proof.
  intros Hw. induction fuel as [|fuel IH]; [reflexivity|].
  rewrite eval_S, (diff_derivative_scalar w w' a Hw). exact IH.
Qed.

Lemma nested_derivative_diverges_witness :
  exists g, (h ← py_mul (Derivative (Symbol "x") None) (Symbol "y");
             py_mul (Derivative (Symbol "x") None) h) = Ok g /\
    eval 1000 (∅ : bindings) g = Err RecursionError.
Proof.
  eexists. split; [reflexivity|].
  apply (nested_derivative_diverges 1000 ∅ (Symbol "x") (Symbol "x") (Some (Symbol "y"))).
  reflexivity.
Defined.

(** ** Operators on two Tensors *)

Lemma py_add_tt xs ys :
  py_add (Tensor xs) (Tensor ys) =
  (sa ← shape (Tensor xs); sb ← shape (Tensor ys);
   if list_nat_eqb sa sb then es ← zip_res py_add xs ys; tensor_new es
   else Err (AssertionError "cannot add tensors of different shapes")).
Proof. reflexivity. Qed.

Lemma py_sub_tt xs ys :
  py_sub (Tensor xs) (Tensor ys) =
  (sa ← shape (Tensor xs); sb ← shape (Tensor ys);
   if list_nat_eqb sa sb then es ← zip_res py_sub xs ys; tensor_new es
   else Err (AssertionError "cannot subtract tensors of different shapes")).
Proof. reflexivity. Qed.

(** X6. Two Tensors never combine by [*]: [a * b] fails the assertion
    'cannot multiply two tensors' whatever their shapes.  [a + b] and
    [a - b] fail their assertions when the shapes differ. *)
Theorem tensor_operand_errors (a b : obj) :
  is_tensor a = true -> is_tensor b = true ->
  py_mul a b = Err (AssertionError "cannot multiply two tensors") /\
  (forall sa sb, shape a = Ok sa -> shape b = Ok sb -> sa <> sb ->
     py_add a b = Err (AssertionError "cannot add tensors of different shapes") /\
     py_sub a b = Err (AssertionError "cannot subtract tensors of different shapes")).
Proof.
  destruct a as [| | | | | |xs| | | | | |]; try discriminate.
  destruct b as [| | | | | |ys| | | | | |]; try discriminate.
  intros _ _. split; [reflexivity|].
  intros sa sb Ha Hb Hne.
  assert (E : list_nat_eqb sa sb = false).
  { unfold list_nat_eqb. apply bool_decide_eq_false. exact Hne. }
  rewrite py_add_tt, py_sub_tt, Ha, Hb. cbn [mbind result_bind]. rewrite E.
  split; reflexivity.
Qed.

Lemma tensor_operand_errors_witness :
  py_mul (Tensor [Symbol "x"]) (Tensor [Symbol "x"]) =
    Err (AssertionError "cannot multiply two tensors") /\
  py_add (Tensor [Symbol "x"; Symbol "y"]) (Tensor [Symbol "x"; Symbol "y"; Symbol "z"]) =
    Err (AssertionError "cannot add tensors of different shapes") /\
  py_sub (Tensor [Symbol "x"; Symbol "y"]) (Tensor [Symbol "x"; Symbol "y"; Symbol "z"]) =
    Err (AssertionError "cannot subtract tensors of different shapes").
Proof.
  split; [exact (proj1 (tensor_operand_errors (Tensor [Symbol "x"]) (Tensor [Symbol "x"])
                          eq_refl eq_refl))|].
  apply (proj2 (tensor_operand_errors (Tensor [Symbol "x"; Symbol "y"])
                  (Tensor [Symbol "x"; Symbol "y"; Symbol "z"]) eq_refl eq_refl) [2%nat] [3%nat]);
    [reflexivity|reflexivity|discriminate].
Defined.

(** ** Elementwise operators on vectors *)

Lemma zip_res_ints n k B (f : obj -> obj -> result obj) (op : Z -> Z -> Z)
    (xs ys : list obj) (avs bvs : list Z) :
  (forall x y a b, scalar_node x -> scalar_node y ->
     eval n B x = Ok (PyNum NInt a) -> eval n B y = Ok (PyNum NInt b) ->
     exists r, f x y = Ok r /\ is_node r = true /\ eval k B r = Ok (PyNum NInt (op a b))) ->
  Forall scalar_node xs -> Forall scalar_node ys ->
  Forall2 (fun x a => eval n B x = Ok (PyNum NInt a)) xs avs ->
  Forall2 (fun y b => eval n B y = Ok (PyNum NInt b)) ys bvs ->
  exists es, zip_res f xs ys = Ok es /\ length es = Nat.min (length xs) (length ys) /\
    Forall scalar_node es /\
    Forall2 (fun e c => eval k B e = Ok (PyNum NInt c)) es (zip_with op avs bvs).
Proof.
  intros Hf Hxs Hys Ha. revert ys bvs Hys.
  induction Ha as [|x a xs avs Hxa _ IH]; intros ys bvs Hys Hb.
  - exists []. repeat split; constructor.
  - destruct Hb as [|y b ys bvs Hyb Hb].
    + exists []. repeat split; constructor.
    + inversion Hxs as [|? ? Hx Hxs']; subst. inversion Hys as [|? ? Hy Hys']; subst.
      destruct (Hf x y a b Hx Hy Hxa Hyb) as (r & Hr & Hrn & Hre).
      destruct (IH Hxs' ys bvs Hys' Hb) as (es & Hes & Hlen & Hs & He).
      exists (r :: es). split; [|split; [|split]].
      * cbn. rewrite Hr. cbn [mbind result_bind]. change (zip_res f xs ys = Ok es) in Hes.
        rewrite Hes. reflexivity.
      * cbn [length]. rewrite Hlen. reflexivity.
      * constructor; [|exact Hs]. split; [exact Hrn|exact (eval_int_not_tensor _ _ _ _ _ Hre)].
      * constructor; assumption.
Qed.

Lemma tensor_new_scalars (es : list obj) :
  es <> [] -> Forall scalar_node es -> tensor_new es = Ok (Tensor es).
Proof.
  intros Hne Hs. unfold tensor_new. rewrite (map_res_express_scalars es Hs).
  cbn [mbind result_bind]. exact (tensor_check_scalars es Hne Hs).
Qed.

Lemma eval_tensor_ints k B (es : list obj) (cs : list Z) :
  Forall2 (fun e c => eval k B e = Ok (PyNum NInt c)) es cs ->
  eval (S k) B (Tensor es) = Ok (PyArray (map (PyNum NInt) cs)).
Proof.
  intros H. rewrite eval_S.
  rewrite (map_res_all_ok (eval k B) es (map (PyNum NInt) cs)).
  - cbn [mbind result_bind].
    assert (E : existsb is_node (map (PyNum NInt) cs) = false).
    { clear H. induction cs; [reflexivity|exact IHcs]. }
    rewrite E. reflexivity.
  - induction H; constructor; assumption.
Qed.

(** X7. For two vectors of the same length whose elements are non-Tensor
    nodes with int values, [u + v] and [u - v] are vectors whose [eval] is
    the array of the elementwise sums and differences. *)
Theorem vector_add_sub_eval (n : nat) (B : bindings) (xs ys : list obj) (avs bvs : list Z) :
  xs <> [] -> length xs = length ys ->
  Forall scalar_node xs -> Forall scalar_node ys ->
  Forall2 (fun x a => eval n B x = Ok (PyNum NInt a)) xs avs ->
  Forall2 (fun y b => eval n B y = Ok (PyNum NInt b)) ys bvs ->
  exists s d, py_add (Tensor xs) (Tensor ys) = Ok s /\
    eval (S (S n)) B s = Ok (PyArray (map (PyNum NInt) (zip_with Z.add avs bvs))) /\
    py_sub (Tensor xs) (Tensor ys) = Ok d /\
    eval (S (S (S n))) B d = Ok (PyArray (map (PyNum NInt) (zip_with Z.sub avs bvs))).
Proof.
  intros Hne Hlen Hxs Hys Ha Hb.
  assert (Hyne : ys <> []) by (intros ->; destruct xs; [congruence|discriminate]).
  assert (Hsh : list_nat_eqb [length xs] [length ys] = true).
  { unfold list_nat_eqb. apply bool_decide_eq_true. rewrite Hlen. reflexivity. }
  assert (Hfa : forall x y a b, scalar_node x -> scalar_node y ->
     eval n B x = Ok (PyNum NInt a) -> eval n B y = Ok (PyNum NInt b) ->
     exists r, py_add x y = Ok r /\ is_node r = true /\ eval (S n) B r = Ok (PyNum NInt (a + b))).
  { intros x y a b Hx Hy Hxa Hyb. exact (py_add_ints_eval n B x y a b (proj1 Hx) (proj1 Hy) Hxa Hyb). }
  assert (Hfs : forall x y a b, scalar_node x -> scalar_node y ->
     eval n B x = Ok (PyNum NInt a) -> eval n B y = Ok (PyNum NInt b) ->
     exists r, py_sub x y = Ok r /\ is_node r = true /\ eval (S (S n)) B r = Ok (PyNum NInt (a - b))).
  { intros x y a b Hx Hy Hxa Hyb.
    destruct (sub_scalar_eval n B x y a b (proj1 Hx) (proj1 Hy) Hxa Hyb) as (ny & H1 & _ & H2).
    exists (Add [x; ny]). split; [exact H1|]. split; [reflexivity|exact H2]. }
  destruct (zip_res_ints n (S n) B py_add Z.add xs ys avs bvs Hfa Hxs Hys Ha Hb)
    as (es & Hes & Hel & Hes1 & Hes2).
  destruct (zip_res_ints n (S (S n)) B py_sub Z.sub xs ys avs bvs Hfs Hxs Hys Ha Hb)
    as (ds & Hds & Hdl & Hds1 & Hds2).
  assert (Hmin : Nat.min (length xs) (length ys) <> 0%nat).
  { rewrite Hlen, Nat.min_id. destruct ys; [congruence|discriminate]. }
  exists (Tensor es), (Tensor ds). split; [|split; [|split]].
  - rewrite py_add_tt, (shape_row xs Hne Hxs), (shape_row ys Hyne Hys).
    cbn [mbind result_bind]. rewrite Hsh, Hes. cbn [mbind result_bind].
    apply tensor_new_scalars; [|exact Hes1]. intros ->. apply Hmin. rewrite <- Hel. reflexivity.
  - apply eval_tensor_ints. exact Hes2.
  - rewrite py_sub_tt, (shape_row xs Hne Hxs), (shape_row ys Hyne Hys).
    cbn [mbind result_bind]. rewrite Hsh, Hds. cbn [mbind result_bind].
    apply tensor_new_scalars; [|exact Hds1]. intros ->. apply Hmin. rewrite <- Hdl. reflexivity.
  - apply eval_tensor_ints. exact Hds2.
Qed.

Lemma vector_add_sub_eval_witness :
  let B : bindings := {[ "x" := PyNum NInt 10; "y" := PyNum NInt 20 ]} in
  exists s d,
    py_add (Tensor [Symbol "x"; Symbol "y"]) (Tensor [Number NInt 1; Symbol "x"]) = Ok s /\
    eval 3 B s = Ok (PyArray [PyNum NInt 11; PyNum NInt 30]) /\
    py_sub (Tensor [Symbol "x"; Symbol "y"]) (Tensor [Number NInt 1; Symbol "x"]) = Ok d /\
    eval 4 B d = Ok (PyArray [PyNum NInt 9; PyNum NInt 10]).
Proof.
  intros B.
  apply (vector_add_sub_eval 1 B [Symbol "x"; Symbol "y"] [Number NInt 1; Symbol "x"]
           [10; 20] [1; 10]);
    [discriminate|reflexivity|repeat constructor|repeat constructor
    |repeat constructor; vm_compute; reflexivity|repeat constructor; vm_compute; reflexivity].
Defined.

(** ** Outer product *)

Lemma row_products n B (x : obj) (a : Z) (ys : list obj) (bvs : list Z) :
  scalar_node x -> eval n B x = Ok (PyNum NInt a) ->
  Forall scalar_node ys ->
  Forall2 (fun y b => eval n B y = Ok (PyNum NInt b)) ys bvs ->
  exists ps, map_res (fun y => py_mul x y) ys = Ok ps /\ length ps = length ys /\
    Forall scalar_node ps /\
    Forall2 (fun p c => eval (S n) B p = Ok (PyNum NInt c)) ps (map (Z.mul a) bvs).
Proof.
  intros Hx Ha Hys Hb. induction Hb as [|y b ys bvs Hyb _ IH].
  - exists []. repeat split; constructor.
  - inversion Hys as [|? ? Hy Hys']; subst.
    destruct (py_mul_scalars_eval n B x y a b Hx Hy Ha Hyb) as (p & Hp & Hps & Hpe).
    destruct (IH Hys') as (ps & H1 & H2 & H3 & H4).
    exists (p :: ps). split; [|split; [|split]].
    + cbn. rewrite Hp. cbn [mbind result_bind]. rewrite H1. reflexivity.
    + cbn [length]. rewrite H2. reflexivity.
    + constructor; assumption.
    + constructor; assumption.
Qed.

Lemma outer_rows n B (xs ys : list obj) (avs bvs : list Z) :
  ys <> [] ->
  Forall scalar_node xs -> Forall scalar_node ys ->
  Forall2 (fun x a => eval n B x = Ok (PyNum NInt a)) xs avs ->
  Forall2 (fun y b => eval n B y = Ok (PyNum NInt b)) ys bvs ->
  exists rows,
    map_res (fun x => es ← map_res (fun y => py_mul x y) ys; tensor_new es) xs =
      Ok (map Tensor rows) /\
    Forall (fun r => length r = length ys) rows /\ Forall (Forall scalar_node) rows /\
    Forall2 (fun r a => Forall2 (fun p c => eval (S n) B p = Ok (PyNum NInt c)) r
                          (map (Z.mul a) bvs)) rows avs.
Proof.
  intros Hyne Hxs Hys Ha Hb. induction Ha as [|x a xs avs Hxa _ IH].
  - exists []. repeat split; constructor.
  - inversion Hxs as [|? ? Hx Hxs']; subst.
    destruct (row_products n B x a ys bvs Hx Hxa Hys Hb) as (ps & H1 & H2 & H3 & H4).
    destruct (IH Hxs') as (rows & R1 & R2 & R3 & R4).
    exists (ps :: rows). split; [|split; [|split]].
    + cbn. rewrite H1. cbn [mbind result_bind].
      rewrite (tensor_new_scalars ps); [|intros ->; destruct ys; [congruence|discriminate]|exact H3].
      cbn [mbind result_bind]. rewrite R1. reflexivity.
    + constructor; assumption.
    + constructor; assumption.
    + constructor; assumption.
Qed.

(** X8. The outer product of two non-empty vectors whose elements are
    non-Tensor nodes with int values is a matrix of shape
    [(len(u), len(v))] whose [eval] is the nested array of the products
    [a * b], one row per element [a] of the left vector. *)
Theorem outer_vectors_eval (n : nat) (B : bindings) (xs ys : list obj) (avs bvs : list Z) :
  xs <> [] -> ys <> [] ->
  Forall scalar_node xs -> Forall scalar_node ys ->
  Forall2 (fun x a => eval n B x = Ok (PyNum NInt a)) xs avs ->
  Forall2 (fun y b => eval n B y = Ok (PyNum NInt b)) ys bvs ->
  exists t, outer (Tensor xs) (Tensor ys) = Ok t /\
    shape t = Ok [length xs; length ys] /\
    eval (S (S (S n))) B t =
      Ok (PyArray (map (fun a => PyArray (map (fun b => PyNum NInt (a * b)) bvs)) avs)).
Proof.
  intros Hxne Hyne Hxs Hys Ha Hb.
  destruct (outer_rows n B xs ys avs bvs Hyne Hxs Hys Ha Hb) as (rows & R1 & R2 & R3 & R4).
  assert (Hrne : rows <> []).
  { intros ->. apply map_res_length in R1. destruct xs; [congruence|discriminate]. }
  exists (Tensor (map Tensor rows)). split; [|split].
  - unfold outer. cbn [is_tensor andb negb].
    destruct xs as [|x xs']; [congruence|]. destruct ys as [|y ys']; [congruence|].
    inversion Hxs as [|? ? Hx _]; subst. inversion Hys as [|? ? Hy _]; subst.
    cbn [order]. rewrite (order_scalar x Hx), (order_scalar y Hy).
    cbn [mbind result_bind Nat.ltb Nat.leb]. rewrite R1. cbn [mbind result_bind].
    unfold tensor_new.
    rewrite (map_res_all_ok express (map Tensor rows) (map Tensor rows)).
    + cbn [mbind result_bind]. apply (tensor_check_rows rows (length (y :: ys'))); auto.
      cbn; lia.
    + clear. induction rows; constructor; [reflexivity|exact IHrows].
  - destruct rows as [|r rows']; [congruence|].
    inversion R2 as [|? ? Hr _]; subst. inversion R3 as [|? ? Hrs _]; subst.
    cbn [map]. change (shape (Tensor (Tensor r :: map Tensor rows'))) with (s ← shape (Tensor r); Ok (length (Tensor r :: map Tensor rows') :: s)). rewrite (shape_row r); [| |exact Hrs].
    + cbn [mbind result_bind]. assert (Hl := map_res_length _ _ _ R1).
      cbn [length map] in Hl |- *. rewrite length_map in Hl |- *. rewrite Hr, Hl. reflexivity.
    + intros ->. cbn in Hr. destruct ys; [congruence|discriminate].
  - rewrite eval_S.
    rewrite (map_res_all_ok (eval (S (S n)) B) (map Tensor rows)
               (map (fun a => PyArray (map (fun b => PyNum NInt (a * b)) bvs)) avs)).
    + cbn [mbind result_bind].
      assert (E : forall l, existsb is_node (map (fun a => PyArray (map (fun b => PyNum NInt (a * b)) bvs)) l) = false).
      { induction l; [reflexivity|exact IHl]. }
      rewrite E. reflexivity.
    + clear -R4. induction R4 as [|r a rows avs Hr _ IH]; constructor; [|exact IH].
      rewrite (eval_tensor_ints (S n) B r (map (Z.mul a) bvs) Hr), map_map. reflexivity.
Qed.

Lemma outer_vectors_eval_witness :
  let B : bindings := {[ "x" := PyNum NInt 2; "y" := PyNum NInt 3 ]} in
  exists t, outer (Tensor [Symbol "x"; Number NInt 5]) (Tensor [Symbol "y"; Symbol "x"; Number NInt 1]) = Ok t /\
    shape t = Ok [2%nat; 3%nat] /\
    eval 4 B t = Ok (PyArray [PyArray [PyNum NInt 6; PyNum NInt 4; PyNum NInt 2];
                              PyArray [PyNum NInt 15; PyNum NInt 10; PyNum NInt 5]]).
Proof.
  intros B.
  apply (outer_vectors_eval 1 B [Symbol "x"; Number NInt 5] [Symbol "y"; Symbol "x"; Number NInt 1]
           [2; 5] [3; 2; 1]);
    [discriminate|discriminate|repeat constructor|repeat constructor
    |repeat constructor; vm_compute; reflexivity|repeat constructor; vm_compute; reflexivity].
Defined.

(** X9. The outer product of two Tensors raises [NotImplementedError] as
    soon as one of them has order greater than 1, the left one being
    checked first. *)
Theorem outer_high_order (a b : obj) (oa : nat) :
  is_tensor a = true -> is_tensor b = true -> order a = Ok oa ->
  ((1 < oa)%nat -> outer a b = Err NotImplementedError) /\
  (forall ob, order b = Ok ob -> (1 < ob)%nat -> outer a b = Err NotImplementedError).
Proof.
  intros Ha Hb Hoa. unfold outer. rewrite Ha, Hb. cbn [andb negb].
  rewrite Hoa. cbn [mbind result_bind]. split.
  - intros Hlt. apply Nat.ltb_lt in Hlt. rewrite Hlt. reflexivity.
  - intros ob Hob Hlt. destruct (1 <? oa)%nat; [reflexivity|].
    rewrite Hob. cbn [mbind result_bind]. apply Nat.ltb_lt in Hlt. rewrite Hlt. reflexivity.
Qed.

Lemma outer_high_order_witness :
  outer (Tensor [Tensor [Symbol "a"]; Tensor [Symbol "b"]]) (Tensor [Symbol "c"]) = Err NotImplementedError /\
  outer (Tensor [Symbol "c"]) (Tensor [Tensor [Symbol "a"]; Tensor [Symbol "b"]]) = Err NotImplementedError.
Proof.
  split.
  - apply (outer_high_order (Tensor [Tensor [Symbol "a"]; Tensor [Symbol "b"]]) (Tensor [Symbol "c"])
             2%nat eq_refl eq_refl eq_refl). lia.
  - apply (proj2 (outer_high_order (Tensor [Symbol "c"]) (Tensor [Tensor [Symbol "a"]; Tensor [Symbol "b"]]) 1%nat eq_refl eq_refl eq_refl) 2%nat eq_refl). lia.
Defined.

(** ** Inner products *)

Lemma eval_add_ints k B (ps : list obj) (cs : list Z) :
  Forall2 (fun p c => eval k B p = Ok (PyNum NInt c)) ps cs ->
  eval (S k) B (Add ps) = Ok (PyNum NInt (fold_right Z.add 0 cs)).
Proof.
  intros H. rewrite eval_S. unfold loop_eval.
  destruct H as [|p c ps' cs' Hpc Hrest]; [reflexivity|].
  cbn [eval_loop]. rewrite Hpc.
  transitivity (eval_loop py_add (eval k B) 1 ps' (PyNum NInt c)); [reflexivity|].
  rewrite (eval_loop_add_ints _ _ _ 0 c Hrest), fold_left_add_sum. reflexivity.
Qed.

Lemma inner_base_eval n B (xs ys : list obj) (avs bvs : list Z) :
  Forall scalar_node xs -> Forall scalar_node ys ->
  Forall2 (fun x a => eval n B x = Ok (PyNum NInt a)) xs avs ->
  Forall2 (fun y b => eval n B y = Ok (PyNum NInt b)) ys bvs ->
  exists ps, inner_base xs ys = Ok (Add ps) /\
    length ps = Nat.min (length xs) (length ys) /\
    eval (S (S n)) B (Add ps) = Ok (PyNum NInt (fold_right Z.add 0 (zip_with Z.mul avs bvs))).
Proof.
  intros Hxs Hys Ha Hb.
  destruct (py_mul_pairs n B xs ys avs bvs Hxs Hys Ha Hb) as (ps & Hps & Hpe).
  exists ps. split; [unfold inner_base; rewrite Hps; reflexivity|]. split.
  - apply map_res_length in Hps. rewrite Hps, length_combine. reflexivity.
  - exact (eval_add_ints (S n) B ps _ Hpe).
Qed.

Lemma inner_row_vec (r v : list obj) :
  r <> [] -> v <> [] -> Forall scalar_node r -> Forall scalar_node v ->
  inner (Tensor r) (Tensor v) = inner_base r v /\
  inner_vec (Tensor v) (Tensor r) = inner_base v r.
Proof.
  intros Hr Hv Hrs Hvs.
  destruct r as [|x r']; [congruence|]. destruct v as [|y v']; [congruence|].
  inversion Hrs as [|? ? Hx _]; inversion Hvs as [|? ? Hy _]; subst.
  split.
  - cbn [inner order]. rewrite (order_scalar x Hx), (order_scalar y Hy). reflexivity.
  - cbn [inner_vec is_tensor andb negb order]. rewrite (order_scalar x Hx). reflexivity.
Qed.

(** [inner] on two Tensors, its inner loop over [zip(self, other)]
    written with [zip_res]. *)
Lemma inner_tt (xs ys : list obj) :
  inner (Tensor xs) (Tensor ys) =
  (oa ← order (Tensor xs);
   if (1 <? oa)%nat then
     ob ← order (Tensor ys);
     if (1 <? ob)%nat then es ← zip_res inner xs ys; tensor_new es
     else es ← map_res (fun x => inner x (Tensor ys)) xs; tensor_new es
   else
     ob ← order (Tensor ys);
     if (1 <? ob)%nat then es ← map_res (inner_vec (Tensor xs)) ys; tensor_new es
     else inner_base xs ys).
Proof. reflexivity. Qed.

Lemma map_rows_ints k B (f : obj -> result obj) (g : list Z -> Z)
    (rows : list (list obj)) (rvs : list (list Z)) :
  (forall r cs, r <> [] -> Forall scalar_node r ->
     Forall2 (fun x c => eval k B x = Ok (PyNum NInt c)) r cs ->
     exists e, f (Tensor r) = Ok e /\ scalar_node e /\ eval (S (S k)) B e = Ok (PyNum NInt (g cs))) ->
  Forall (fun r => r <> []) rows -> Forall (Forall scalar_node) rows ->
  Forall2 (fun r cs => Forall2 (fun x c => eval k B x = Ok (PyNum NInt c)) r cs) rows rvs ->
  exists es, map_res f (map Tensor rows) = Ok es /\ length es = length rows /\
    Forall scalar_node es /\
    Forall2 (fun e c => eval (S (S k)) B e = Ok (PyNum NInt c)) es (map g rvs).
Proof.
  intros Hf Hne Hs H. induction H as [|r cs rows rvs Hr _ IH].
  - exists []. repeat split; constructor.
  - inversion Hne as [|? ? Hr0 Hne']; inversion Hs as [|? ? Hs0 Hs']; subst.
    destruct (Hf r cs Hr0 Hs0 Hr) as (e & E1 & E2 & E3).
    destruct (IH Hne' Hs') as (es & H1 & H2 & H3 & H4).
    exists (e :: es). split; [|split; [|split]].
    + cbn. rewrite E1. cbn [mbind result_bind]. rewrite H1. reflexivity.
    + cbn [length]. rewrite H2. reflexivity.
    + constructor; assumption.
    + constructor; assumption.
Qed.

Lemma zip_rows_ints k B (f : obj -> obj -> result obj) (g : list Z -> list Z -> Z)
    (rows1 rows2 : list (list obj)) (rvs1 rvs2 : list (list Z)) :
  (forall r1 r2 cs1 cs2, r1 <> [] -> r2 <> [] -> Forall scalar_node r1 -> Forall scalar_node r2 ->
     Forall2 (fun x c => eval k B x = Ok (PyNum NInt c)) r1 cs1 ->
     Forall2 (fun x c => eval k B x = Ok (PyNum NInt c)) r2 cs2 ->
     exists e, f (Tensor r1) (Tensor r2) = Ok e /\ scalar_node e /\
       eval (S (S k)) B e = Ok (PyNum NInt (g cs1 cs2))) ->
  Forall (fun r => r <> []) rows1 -> Forall (Forall scalar_node) rows1 ->
  Forall (fun r => r <> []) rows2 -> Forall (Forall scalar_node) rows2 ->
  Forall2 (fun r cs => Forall2 (fun x c => eval k B x = Ok (PyNum NInt c)) r cs) rows1 rvs1 ->
  Forall2 (fun r cs => Forall2 (fun x c => eval k B x = Ok (PyNum NInt c)) r cs) rows2 rvs2 ->
  exists es, zip_res f (map Tensor rows1) (map Tensor rows2) = Ok es /\
    length es = Nat.min (length rows1) (length rows2) /\
    Forall scalar_node es /\
    Forall2 (fun e c => eval (S (S k)) B e = Ok (PyNum NInt c)) es (zip_with g rvs1 rvs2).
Proof.
  intros Hf Hn1 Hs1 Hn2 Hs2 H1. revert rows2 rvs2 Hn2 Hs2.
  induction H1 as [|r1 cs1 rows1 rvs1 Hr1 _ IH]; intros rows2 rvs2 Hn2 Hs2 H2.
  - exists []. repeat split; constructor.
  - destruct H2 as [|r2 cs2 rows2 rvs2 Hr2 H2].
    + exists []. repeat split; constructor.
    + inversion Hn1 as [|? ? Hn1a Hn1b]; inversion Hs1 as [|? ? Hs1a Hs1b];
        inversion Hn2 as [|? ? Hn2a Hn2b]; inversion Hs2 as [|? ? Hs2a Hs2b]; subst.
      destruct (Hf r1 r2 cs1 cs2 Hn1a Hn2a Hs1a Hs2a Hr1 Hr2) as (e & E1 & E2 & E3).
      destruct (IH Hn1b Hs1b rows2 rvs2 Hn2b Hs2b H2) as (es & F1 & F2 & F3 & F4).
      exists (e :: es). split; [|split; [|split]].
      * cbn. rewrite E1. cbn [mbind result_bind].
        change (zip_res f (map Tensor rows1) (map Tensor rows2) = Ok es) in F1.
        rewrite F1. reflexivity.
      * cbn [length]. rewrite F2. reflexivity.
      * constructor; assumption.
      * constructor; assumption.
Qed.

Lemma zip_with_mul_comm (cs ds : list Z) : zip_with Z.mul cs ds = zip_with Z.mul ds cs.
Proof.
  revert ds; induction cs as [|c cs IH]; intros [|d ds]; try reflexivity.
  cbn. rewrite IH, Z.mul_comm. reflexivity.
Qed.

Lemma order_matrix (rows : list (list obj)) :
  rows <> [] -> Forall (fun r => r <> []) rows -> Forall (Forall scalar_node) rows ->
  order (Tensor (map Tensor rows)) = Ok 2%nat.
Proof.
  intros Hne Hn Hs. destruct rows as [|r rows']; [congruence|].
  inversion Hn as [|? ? Hr _]; inversion Hs as [|? ? Hrs _]; subst.
  destruct r as [|x r']; [congruence|]. inversion Hrs as [|? ? Hx _]; subst.
  cbn [map order]. rewrite (order_scalar x Hx). reflexivity.
Qed.

Lemma order_vector (v : list obj) :
  v <> [] -> Forall scalar_node v -> order (Tensor v) = Ok 1%nat.
Proof.
  intros Hne Hs. destruct v as [|x v']; [congruence|]. inversion Hs as [|? ? Hx _]; subst.
  cbn [order]. rewrite (order_scalar x Hx). reflexivity.
Qed.

(** X10. [inner] of two non-empty vectors of non-Tensor nodes with int
    values pairs their elements as [zip] does: when the lengths differ the
    extra elements of the longer one are dropped, the [Add] node has one
    product per pair, and it evaluates to the sum of those products. *)
Theorem inner_vectors_zip (n : nat) (B : bindings) (xs ys : list obj) (avs bvs : list Z) :
  xs <> [] -> ys <> [] ->
  Forall scalar_node xs -> Forall scalar_node ys ->
  Forall2 (fun x a => eval n B x = Ok (PyNum NInt a)) xs avs ->
  Forall2 (fun y b => eval n B y = Ok (PyNum NInt b)) ys bvs ->
  exists ps, inner (Tensor xs) (Tensor ys) = Ok (Add ps) /\
    length ps = Nat.min (length xs) (length ys) /\
    eval (S (S n)) B (Add ps) =
      Ok (PyNum NInt (fold_right Z.add 0 (zip_with Z.mul avs bvs))).
Proof.
  intros Hxne Hyne Hxs Hys Ha Hb.
  destruct (inner_base_eval n B xs ys avs bvs Hxs Hys Ha Hb) as (ps & H1 & H2 & H3).
  exists ps. split; [|split; [exact H2|]].
  - rewrite (proj1 (inner_row_vec xs ys Hxne Hyne Hxs Hys)). exact H1.
  - exact H3.
Qed.

Lemma inner_vectors_zip_witness :
  let B : bindings := {[ "a" := PyNum NInt 1; "b" := PyNum NInt 2; "c" := PyNum NInt 3;
                         "d" := PyNum NInt 4; "e" := PyNum NInt 5 ]} in
  exists ps,
    inner (Tensor [Symbol "a"; Symbol "b"; Symbol "c"]) (Tensor [Symbol "d"; Symbol "e"]) = Ok (Add ps) /\
    length ps = 2%nat /\ eval 3 B (Add ps) = Ok (PyNum NInt 14).
Proof.
  intros B.
  destruct (inner_vectors_zip 1 B [Symbol "a"; Symbol "b"; Symbol "c"] [Symbol "d"; Symbol "e"]
              [1; 2; 3] [4; 5]) as (ps & H1 & H2 & H3);
    [discriminate|discriminate|repeat constructor|repeat constructor
    |repeat constructor; vm_compute; reflexivity
    |repeat constructor; vm_compute; reflexivity|].
  exists ps. split; [exact H1|]. split; [exact H2|]. exact H3.
Defined.

(** X11. For a matrix [M] (a Tensor of non-empty rows of non-Tensor nodes)
    and a non-empty vector [v] with int values, [M.inner(v)] and
    [v.inner(M)] are the same vector: entry [i] of both is the sum of the
    products of row [i] of [M] with [v], paired as [zip] does. *)
Theorem inner_matrix_vector (n : nat) (B : bindings) (rows : list (list obj)) (v : list obj)
    (rvs : list (list Z)) (bvs : list Z) :
  rows <> [] -> v <> [] ->
  Forall (fun r => r <> []) rows -> Forall (Forall scalar_node) rows -> Forall scalar_node v ->
  Forall2 (fun r cs => Forall2 (fun x c => eval n B x = Ok (PyNum NInt c)) r cs) rows rvs ->
  Forall2 (fun y b => eval n B y = Ok (PyNum NInt b)) v bvs ->
  exists t1 t2,
    inner (Tensor (map Tensor rows)) (Tensor v) = Ok t1 /\
    inner (Tensor v) (Tensor (map Tensor rows)) = Ok t2 /\
    eval (S (S (S n))) B t1 =
      Ok (PyArray (map (fun cs => PyNum NInt (fold_right Z.add 0 (zip_with Z.mul cs bvs))) rvs)) /\
    eval (S (S (S n))) B t2 = eval (S (S (S n))) B t1.
Proof.
  intros Hne Hvne Hn Hs Hvs Hr Hb.
  assert (Hrne : map Tensor rows <> []) by (destruct rows; [congruence|discriminate]).
  destruct (map_rows_ints n B (fun x => inner x (Tensor v))
              (fun cs => fold_right Z.add 0 (zip_with Z.mul cs bvs)) rows rvs)
    as (es & E1 & E2 & E3 & E4); [|assumption..|].
  { intros r cs Hr0 Hrs Hrc.
    destruct (inner_base_eval n B r v cs bvs Hrs Hvs Hrc Hb) as (ps & P1 & _ & P3).
    exists (Add ps). split; [|split; [split; reflexivity|exact P3]].
    rewrite (proj1 (inner_row_vec r v Hr0 Hvne Hrs Hvs)). exact P1. }
  destruct (map_rows_ints n B (inner_vec (Tensor v))
              (fun cs => fold_right Z.add 0 (zip_with Z.mul bvs cs)) rows rvs)
    as (ds & D1 & D2 & D3 & D4); [|assumption..|].
  { intros r cs Hr0 Hrs Hrc.
    destruct (inner_base_eval n B v r bvs cs Hvs Hrs Hb Hrc) as (ps & P1 & _ & P3).
    exists (Add ps). split; [|split; [split; reflexivity|exact P3]].
    rewrite (proj2 (inner_row_vec r v Hr0 Hvne Hrs Hvs)). exact P1. }
  assert (Ees : es <> []) by (intros ->; destruct rows; [congruence|discriminate]).
  assert (Eds : ds <> []) by (intros ->; destruct rows; [congruence|discriminate]).
  exists (Tensor es), (Tensor ds). split; [|split; [|split]].
  - rewrite inner_tt, (order_matrix rows Hne Hn Hs), (order_vector v Hvne Hvs).
    cbn [mbind result_bind Nat.ltb Nat.leb]. rewrite E1. cbn [mbind result_bind].
    exact (tensor_new_scalars es Ees E3).
  - rewrite inner_tt, (order_matrix rows Hne Hn Hs), (order_vector v Hvne Hvs).
    cbn [mbind result_bind Nat.ltb Nat.leb]. rewrite D1. cbn [mbind result_bind].
    exact (tensor_new_scalars ds Eds D3).
  - rewrite (eval_tensor_ints _ B es _ E4), map_map. reflexivity.
  - rewrite (eval_tensor_ints _ B es _ E4), (eval_tensor_ints _ B ds _ D4), !map_map.
    do 2 f_equal. apply map_ext. intros cs. rewrite zip_with_mul_comm. reflexivity.
Qed.

Lemma inner_matrix_vector_witness :
  let B : bindings := {[ "x" := PyNum NInt 2; "y" := PyNum NInt 3 ]} in
  exists t1 t2,
    inner (Tensor [Tensor [Number NInt 1; Number NInt 2]; Tensor [Number NInt 3; Number NInt 4]])
          (Tensor [Symbol "x"; Symbol "y"]) = Ok t1 /\
    inner (Tensor [Symbol "x"; Symbol "y"])
          (Tensor [Tensor [Number NInt 1; Number NInt 2]; Tensor [Number NInt 3; Number NInt 4]]) = Ok t2 /\
    eval 4 B t1 = Ok (PyArray [PyNum NInt 8; PyNum NInt 18]) /\
    eval 4 B t2 = eval 4 B t1.
Proof.
  intros B.
  destruct (inner_matrix_vector 1 B [[Number NInt 1; Number NInt 2]; [Number NInt 3; Number NInt 4]]
              [Symbol "x"; Symbol "y"] [[1; 2]; [3; 4]] [2; 3]) as (t1 & t2 & H1 & H2 & H3 & H4);
    [discriminate|discriminate|repeat constructor; discriminate|repeat constructor
    |repeat constructor|repeat constructor
    |repeat constructor; vm_compute; reflexivity|].
  exists t1, t2. split; [exact H1|]. split; [exact H2|]. split; [exact H3|exact H4].
Defined.

(** X12. For two matrices (Tensors of non-empty rows of non-Tensor nodes
    with int values), [A.inner(B)] is a vector with one entry per pair of
    rows taken as [zip] does: entry [i] is the sum of the products of
    row [i] of [A] with row [i] of [B]. *)
Theorem inner_matrices (n : nat) (B : bindings) (rows1 rows2 : list (list obj))
    (rvs1 rvs2 : list (list Z)) :
  rows1 <> [] -> rows2 <> [] ->
  Forall (fun r => r <> []) rows1 -> Forall (Forall scalar_node) rows1 ->
  Forall (fun r => r <> []) rows2 -> Forall (Forall scalar_node) rows2 ->
  Forall2 (fun r cs => Forall2 (fun x c => eval n B x = Ok (PyNum NInt c)) r cs) rows1 rvs1 ->
  Forall2 (fun r cs => Forall2 (fun x c => eval n B x = Ok (PyNum NInt c)) r cs) rows2 rvs2 ->
  exists t, inner (Tensor (map Tensor rows1)) (Tensor (map Tensor rows2)) = Ok t /\
    shape t = Ok [Nat.min (length rows1) (length rows2)] /\
    eval (S (S (S n))) B t =
      Ok (PyArray (map (PyNum NInt)
        (zip_with (fun cs ds => fold_right Z.add 0 (zip_with Z.mul cs ds)) rvs1 rvs2))).
Proof.
  intros Hne1 Hne2 Hn1 Hs1 Hn2 Hs2 H1 H2.
  destruct (zip_rows_ints n B inner (fun cs ds => fold_right Z.add 0 (zip_with Z.mul cs ds))
              rows1 rows2 rvs1 rvs2) as (es & E1 & E2 & E3 & E4); [|assumption..|].
  { intros r1 r2 cs1 cs2 Hr1 Hr2 Hs1' Hs2' Hc1 Hc2.
    destruct (inner_base_eval n B r1 r2 cs1 cs2 Hs1' Hs2' Hc1 Hc2) as (ps & P1 & _ & P3).
    exists (Add ps). split; [|split; [split; reflexivity|exact P3]].
    rewrite (proj1 (inner_row_vec r1 r2 Hr1 Hr2 Hs1' Hs2')). exact P1. }
  assert (Ees : es <> []).
  { intros ->. cbn in E2. destruct rows1, rows2; cbn in E2; congruence. }
  exists (Tensor es). split; [|split].
  - rewrite inner_tt, (order_matrix rows1 Hne1 Hn1 Hs1), (order_matrix rows2 Hne2 Hn2 Hs2).
    cbn [mbind result_bind Nat.ltb Nat.leb]. rewrite E1. cbn [mbind result_bind].
    exact (tensor_new_scalars es Ees E3).
  - rewrite (shape_row es Ees E3), E2. reflexivity.
  - exact (eval_tensor_ints _ B es _ E4).
Qed.

Lemma inner_matrices_witness :
  exists t,
    inner (Tensor [Tensor [Number NInt 1; Number NInt 2]; Tensor [Number NInt 3; Number NInt 4]])
          (Tensor [Tensor [Number NInt 5; Number NInt 6]; Tensor [Number NInt 7; Number NInt 8];
                   Tensor [Number NInt 9; Number NInt 9]]) = Ok t /\
    shape t = Ok [2%nat] /\
    eval 4 ∅ t = Ok (PyArray [PyNum NInt 17; PyNum NInt 53]).
Proof.
  destruct (inner_matrices 1 ∅ [[Number NInt 1; Number NInt 2]; [Number NInt 3; Number NInt 4]]
              [[Number NInt 5; Number NInt 6]; [Number NInt 7; Number NInt 8]; [Number NInt 9; Number NInt 9]]
              [[1; 2]; [3; 4]] [[5; 6]; [7; 8]; [9; 9]]) as (t & H1 & H2 & H3);
    [discriminate|discriminate|repeat constructor; discriminate|repeat constructor
    |repeat constructor; discriminate|repeat constructor
    |repeat constructor|repeat constructor|].
  exists t. split; [exact H1|]. split; [exact H2|exact H3].
Defined.

(** ** [Tensor.eval] with unbound names *)

(** X13. Evaluating a vector of Symbols, each bound to an int or unbound,
    gives a Tensor as soon as one name is unbound: the bound names become
    [Number]s of their values and the unbound ones stay Symbols.  When
    every name is bound the result is the array of their values. *)
Theorem tensor_eval_partial (B : bindings) (ns : list string) :
  Forall (fun s => B !! s = None \/ exists v, B !! s = Some (PyNum NInt v)) ns ->
  (Exists (fun s => B !! s = None) ns ->
   eval 2 B (Tensor (map Symbol ns)) =
     Ok (Tensor (map (fun s => match B !! s with
                               | Some (PyNum NInt v) => Number NInt v
                               | _ => Symbol s
                               end) ns))) /\
  (Forall (fun s => B !! s <> None) ns ->
   eval 2 B (Tensor (map Symbol ns)) =
     Ok (PyArray (map (fun s => default (Symbol s) (B !! s)) ns))).
Proof.
  intros Hb.
  assert (Hm : map_res (eval 1 B) (map Symbol ns) =
               Ok (map (fun s => default (Symbol s) (B !! s)) ns)).
  { apply map_res_all_ok. clear. induction ns; constructor; [reflexivity|exact IHns]. }
  rewrite eval_S, Hm. cbn [mbind result_bind]. split.
  - intros Hex.
    assert (Hn : existsb is_node (map (fun s => default (Symbol s) (B !! s)) ns) = true).
    { apply existsb_exists. apply List.Exists_exists in Hex as (s & Hin & Hs).
      exists (Symbol s). split; [|reflexivity].
      apply in_map_iff. exists s. rewrite Hs. split; [reflexivity|exact Hin]. }
    rewrite Hn. unfold tensor_new.
    set (g := fun s => match B !! s with Some (PyNum NInt v) => Number NInt v | _ => Symbol s end).
    assert (He : map_res express (map (fun s => default (Symbol s) (B !! s)) ns) = Ok (map g ns)).
    { apply map_res_all_ok. clear Hm Hn Hex. induction Hb as [|s ns Hs _ IH]; constructor; [|exact IH].
      unfold g. destruct Hs as [-> | (v & ->)]; reflexivity. }
    rewrite He. cbn [mbind result_bind]. apply tensor_check_scalars.
    + intros Hnil. apply map_eq_nil in Hnil. subst ns. inversion Hex.
    + clear -Hb. induction Hb as [|s ns Hs _ IH]; constructor; [|exact IH].
      unfold g. destruct Hs as [-> | (v & ->)]; split; reflexivity.
  - intros Hall.
    assert (Hn : existsb is_node (map (fun s => default (Symbol s) (B !! s)) ns) = false).
    { clear Hm. induction Hb as [|s ns Hs _ IH]; [reflexivity|].
      inversion Hall as [|? ? Hs' Hall']; subst. cbn [map existsb].
      destruct Hs as [Hs | (v & ->)]; [contradiction|]. exact (IH Hall'). }
    rewrite Hn. reflexivity.
Qed.

Lemma tensor_eval_partial_witness :
  let B : bindings := {[ "x" := PyNum NInt 4 ]} in
  eval 2 B (Tensor [Symbol "x"; Symbol "y"]) = Ok (Tensor [Number NInt 4; Symbol "y"]) /\
  eval 2 B (Tensor [Symbol "x"; Symbol "x"]) = Ok (PyArray [PyNum NInt 4; PyNum NInt 4]).
Proof.
  intros B. split.
  - apply (proj1 (tensor_eval_partial B ["x"; "y"]%string
                    ltac:(constructor; [right; eexists; reflexivity|constructor; [left; reflexivity|constructor]]))).
    apply List.Exists_cons_tl, List.Exists_cons_hd. reflexivity.
  - apply (proj2 (tensor_eval_partial B ["x"; "x"]%string
                    ltac:(constructor; [right; eexists; reflexivity|constructor; [right; eexists; reflexivity|constructor]]))).
    repeat constructor; discriminate.
Defined.

(** ** Well-formed Tensors *)

Lemma shape_ok_node (o : obj) (s : list nat) : shape o = Ok s -> is_node o = true.
Proof. destruct o as [| | | | | |[|x xs]| | | | | |]; cbn [shape is_node]; congruence. Qed.

Lemma express_list_wf (xs es : list obj) (s : list nat) :
  Forall (fun o => forall e, inputs_wf o = true -> express o = Ok e ->
                     is_node e = true -> wf e = true) xs ->
  forallb inputs_wf xs = true ->
  Forall2 (fun x e => express x = Ok e) xs es ->
  Forall (fun e => shape e = Ok s) es ->
  forallb wf es = true.
Proof.
  intros IH Hi H. revert IH Hi. induction H as [|x e xs es Hxe _ IHl]; intros IH Hi Hs;
    [reflexivity|].
  inversion IH as [|? ? Hx IH']; inversion Hs as [|? ? Hse Hs']; subst.
  cbn [forallb] in Hi |- *. apply andb_true_iff in Hi as [Hix Hixs].
  rewrite (Hx e Hix Hxe (shape_ok_node e s Hse)). exact (IHl IH' Hixs Hs').
Qed.

Lemma express_wf (o : obj) :
  forall e, inputs_wf o = true -> express o = Ok e -> is_node e = true -> wf e = true.
Proof.
  induction o as [t v|n|a IHa|args IHargs|args IHargs|w IHw a IHa|args IHargs
                 |t v|str|xs IHxs|xs IHxs|xs IHxs|t] using obj_ind_nested;
    intros e Hi He Hn; cbn [express is_node inputs_wf] in Hi, He;
    try (injection He as <-; exact Hi); try discriminate.
  - destruct (int_or_float t); [injection He as <-; reflexivity|discriminate].
  - destruct (1 <? length (split_ws str))%nat; [injection He as <-; discriminate|].
    destruct (length (split_ws str) =? 1)%nat; [|discriminate].
    destruct (split_ws str); [discriminate|injection He as <-; reflexivity].
  - apply bind_ok_inv in He as (es & Hes & Hc).
    assert (Hc' := Hc). apply tensor_check_ok in Hc' as (-> & _ & s & Hall).
    cbn [wf]. rewrite Hc. exact (express_list_wf xs es s IHxs Hi (map_res_ok _ _ _ Hes) Hall).
  - apply bind_ok_inv in He as (es & Hes & Hc).
    assert (Hc' := Hc). apply tensor_check_ok in Hc' as (-> & _ & s & Hall).
    cbn [wf]. rewrite Hc. exact (express_list_wf xs es s IHxs Hi (map_res_ok _ _ _ Hes) Hall).
Qed.

(** X14. [Tensor(args)] builds well-formed Tensors: if every node inside
    the arguments (looking into host lists and tuples) is well formed, a
    Tensor that the constructor returns is well formed at every level:
    each Tensor in it is non-empty and its components share one shape. *)
Theorem tensor_new_wf (args : list obj) (t : obj) :
  forallb inputs_wf args = true -> tensor_new args = Ok t -> wf t = true.
Proof.
  intros Hi Ht.
  assert (Hn : is_node t = true).
  { apply tensor_new_ok in Ht as (es & -> & _). reflexivity. }
  exact (express_wf (PyList args) t Hi Ht Hn).
Qed.

Lemma tensor_new_wf_witness :
  exists t, tensor_new [PyList [PyNum NInt 1; PyStr "x"]; PyTuple [Symbol "y"; PyNum NInt 2]] = Ok t /\
    wf t = true.
Proof.
  eexists. split; [reflexivity|].
  apply (tensor_new_wf [PyList [PyNum NInt 1; PyStr "x"]; PyTuple [Symbol "y"; PyNum NInt 2]]);
    reflexivity.
Defined.

(** ** Strings in Tensor arguments *)






(** X16. Every well-formed object has a shape and an order, the order
    being the length of the shape; the components of a well-formed Tensor
    all have the shape that follows its first entry. *)
Theorem wf_shape_order (o : obj) :
  wf o = true ->
  exists s, shape o = Ok s /\ order o = Ok (length s) /\
    forall xs, o = Tensor xs -> s = length xs :: tail s /\ Forall (fun x => shape x = Ok (tail s)) xs.
Proof.
  induction o as [t v|n|a IHa|args IHargs|args IHargs|w IHw a IHa|args IHargs
                 |t v|str|xs IHxs|xs IHxs|xs IHxs|t] using obj_ind_nested;
    intros Hw; cbn [wf is_node] in Hw; try discriminate;
    try (exists []; split; [reflexivity|]; split; [reflexivity|]; intros ? [=]).
  apply andb_true_iff in Hw as [Hc Hws].
  destruct (tensor_check args) as [t|err] eqn:Et; [|discriminate].
  apply tensor_check_ok in Et as (_ & Hne & s0 & Hall).
  destruct args as [|x xs]; [congruence|].
  inversion IHargs as [|? ? IHx _]; subst.
  cbn [forallb] in Hws. apply andb_true_iff in Hws as [Hwx _].
  destruct (IHx Hwx) as (s & Hs & Ho & _).
  assert (s0 = s) as ->.
  { inversion Hall as [|? ? Hx0 _]; subst. rewrite Hs in Hx0. injection Hx0 as <-. reflexivity. }
  exists (length (x :: xs) :: s). split; [|split].
  - cbn [shape]. rewrite Hs. reflexivity.
  - cbn [order]. rewrite Ho. reflexivity.
  - intros ys [= <-]. split; [reflexivity|exact Hall].
Qed.

Lemma wf_shape_order_witness :
  exists s, shape (Tensor [Tensor [Symbol "a"; Symbol "b"; Number NInt 1]; Tensor [Symbol "c"; Symbol "d"; Symbol "e"]]) = Ok s /\
    order (Tensor [Tensor [Symbol "a"; Symbol "b"; Number NInt 1]; Tensor [Symbol "c"; Symbol "d"; Symbol "e"]]) = Ok (length s) /\
    forall xs, Tensor [Tensor [Symbol "a"; Symbol "b"; Number NInt 1]; Tensor [Symbol "c"; Symbol "d"; Symbol "e"]] = Tensor xs ->
      s = length xs :: tail s /\ Forall (fun x => shape x = Ok (tail s)) xs.
Proof.
  apply (wf_shape_order (Tensor [Tensor [Symbol "a"; Symbol "b"; Number NInt 1];
                                 Tensor [Symbol "c"; Symbol "d"; Symbol "e"]])).
  vm_compute. reflexivity.
Defined.

(** ** Transpose of a matrix *)

Lemma wf_matrix (rows : list (list obj)) (m : nat) :
  rows <> [] -> (0 < m)%nat -> Forall (fun r => length r = m) rows ->
  Forall (Forall scalar_node) rows ->
  wf (Tensor (map Tensor rows)) = true /\ shape (Tensor (map Tensor rows)) = Ok [length rows; m].
Proof.
  intros Hne Hm Hr Hs. split.
  - cbn [wf]. rewrite (tensor_check_rows rows m Hne Hm Hr Hs). cbn [andb].
    apply forallb_forall. intros e He. apply in_map_iff in He as (r & <- & Hin).
    rewrite List.Forall_forall in Hr, Hs.
    assert (Hrne : r <> []) by (intros ->; specialize (Hr [] Hin); cbn in Hr; lia).
    cbn [wf]. rewrite (tensor_check_scalars r Hrne (Hs r Hin)). cbn [andb].
    apply forallb_forall. intros x Hx. specialize (Hs r Hin). rewrite List.Forall_forall in Hs.
    destruct (Hs x Hx) as [Hn Ht]. destruct x; try discriminate; reflexivity.
  - destruct rows as [|r rows']; [congruence|].
    inversion Hr as [|? ? Hr0 _]; inversion Hs as [|? ? Hs0 _]; subst.
    assert (Hrne : r <> []) by (intros ->; cbn in Hm; lia).
    cbn [map]. change (shape (Tensor (Tensor r :: map Tensor rows')))
      with (s ← shape (Tensor r); Ok (length (Tensor r :: map Tensor rows') :: s)).
    rewrite (shape_row r Hrne Hs0). cbn [mbind result_bind length].
    rewrite length_map. reflexivity.
Qed.

(** X17. [T.T] of a matrix: for a Tensor of [n] non-empty rows of the
    same length [m] whose entries are non-Tensor nodes, [.T] returns a
    well-formed Tensor of [m] rows of length [n] whose entry [(j, i)] is
    entry [(i, j)] of the matrix.  An object of order 0 or 1 is returned
    unchanged. *)
Theorem transpose_matrix :
  (forall (o : obj) (k : nat), order o = Ok k -> (k <= 1)%nat -> transpose o = Ok o) /\
  (forall (rows : list (list obj)) (m : nat),
     rows <> [] -> (0 < m)%nat -> Forall (fun r => length r = m) rows ->
     Forall (Forall scalar_node) rows ->
     exists cols, transpose (Tensor (map Tensor rows)) = Ok (Tensor (map Tensor cols)) /\
       wf (Tensor (map Tensor cols)) = true /\
       shape (Tensor (map Tensor cols)) = Ok [m; length rows] /\
       forall i j, (i < length rows)%nat -> (j < m)%nat ->
         nth i (nth j cols []) (PyOther "") = nth j (nth i rows []) (PyOther "")).
Proof.
  split.
  - intros o k Ho Hk. destruct o; cbn [transpose]; rewrite Ho; cbn [mbind result_bind];
      (replace (2 <? k)%nat with false by (symmetry; apply Nat.ltb_ge; lia));
      (replace (k =? 2)%nat with false by (symmetry; apply Nat.eqb_neq; lia)); reflexivity.
  - intros rows m Hne Hm Hr Hs.
    destruct (zip_star_shape rows m Hne Hm Hr) as [Hcne Hc].
    assert (Hcs := zip_star_scalars rows m Hne Hr Hs).
    exists (zip_star rows). split; [exact (transpose_rect rows m Hne Hm Hr Hs)|].
    assert (Hlen : length (zip_star rows) = m).
    { rewrite (zip_star_rect rows m Hne Hr), length_map, length_seq. reflexivity. }
    assert (Hn : (0 < length rows)%nat) by (destruct rows; [congruence|cbn; lia]).
    destruct (wf_matrix (zip_star rows) (length rows) Hcne Hn Hc Hcs) as [Hw Hsh].
    split; [exact Hw|]. split; [rewrite Hsh, Hlen; reflexivity|].
    intros i j Hi Hj. rewrite (zip_star_rect rows m Hne Hr).
    rewrite (nth_indep _ [] (map (fun r => nth 0 r (PyOther "")) rows))
      by (rewrite length_map, length_seq; exact Hj).
    rewrite (map_nth (fun j0 => map (fun r => nth j0 r (PyOther "")) rows) (seq 0 m) 0%nat j).
    rewrite seq_nth by exact Hj. cbn [Nat.add].
    rewrite (nth_indep _ (PyOther "") ((fun r => nth j r (PyOther "")) []))
      by (rewrite length_map; exact Hi).
    rewrite (map_nth (fun r => nth j r (PyOther "")) rows [] i). reflexivity.
Qed.

Lemma transpose_matrix_witness :
  transpose (Tensor [Symbol "a"; Symbol "b"]) = Ok (Tensor [Symbol "a"; Symbol "b"]) /\
  exists cols, transpose (Tensor [Tensor [Symbol "a"; Symbol "b"; Symbol "c"];
                                  Tensor [Symbol "d"; Symbol "e"; Symbol "f"]]) =
                 Ok (Tensor (map Tensor cols)) /\
    wf (Tensor (map Tensor cols)) = true /\ shape (Tensor (map Tensor cols)) = Ok [3%nat; 2%nat] /\
    forall i j, (i < 2)%nat -> (j < 3)%nat ->
      nth i (nth j cols []) (PyOther "") =
      nth j (nth i [[Symbol "a"; Symbol "b"; Symbol "c"]; [Symbol "d"; Symbol "e"; Symbol "f"]] [])
        (PyOther "").
Proof.
  split.
  - apply ((proj1 transpose_matrix) (Tensor [Symbol "a"; Symbol "b"]) 1%nat); [reflexivity|lia].
  - apply ((proj2 transpose_matrix) [[Symbol "a"; Symbol "b"; Symbol "c"]; [Symbol "d"; Symbol "e"; Symbol "f"]] 3%nat);
      [discriminate|lia|repeat constructor|repeat constructor].
Defined.

(** ** The Jacobian of a vector of Symbols *)

(** X18. Differentiating a vector of Symbols [ns] with respect to a
    vector of Symbols [vs] gives the Jacobian: a well-formed matrix of
    shape [(len(ns), len(vs))] whose entry [(i, j)] is [Number(1)] when
    the names agree and the unevaluated [Derivative] of Symbol [i] with
    respect to Symbol [j] otherwise. *)
Theorem diff_jacobian (ns vs : list string) :
  ns <> [] -> vs <> [] ->
  exists t, diff (Tensor (map Symbol ns)) (Tensor (map Symbol vs)) = Ok t /\
    t = Tensor (map (fun n => Tensor (map (fun v =>
          if String.eqb v n then Number NInt 1 else Derivative (Symbol v) (Some (Symbol n))) vs)) ns) /\
    wf t = true /\ shape t = Ok [length ns; length vs].
Proof.
  intros Hns Hvs.
  set (f := fun n => map (fun v =>
          if String.eqb v n then Number NInt 1 else Derivative (Symbol v) (Some (Symbol n))) vs).
  assert (Hfs : forall n, Forall scalar_node (f n)).
  { intros n. unfold f. clear. induction vs as [|v vs IH]; constructor; [|exact IH].
    destruct (String.eqb v n); split; reflexivity. }
  assert (Hfne : forall n, f n <> []).
  { intros n Hnil. unfold f in Hnil. apply map_eq_nil in Hnil. congruence. }
  assert (Hrow : forall n, diff (Symbol n) (Tensor (map Symbol vs)) = Ok (Tensor (f n))).
  { intros n. cbn [diff symbol_diff].
    rewrite (map_res_all_ok (symbol_diff n) (map Symbol vs) (f n)).
    - cbn [mbind result_bind]. unfold tensor_new.
      rewrite (map_res_express_scalars (f n) (Hfs n)). cbn [mbind result_bind].
      exact (tensor_check_scalars (f n) (Hfne n) (Hfs n)).
    - unfold f. clear. induction vs as [|v vs IH]; constructor; [|exact IH].
      cbn [symbol_diff map]. destruct (String.eqb v n); reflexivity. }
  assert (Hrows : map_res (fun a => diff a (Tensor (map Symbol vs))) (map Symbol ns) =
                  Ok (map Tensor (map f ns))).
  { apply map_res_all_ok. clear -Hrow. induction ns as [|n ns IH]; constructor; [|exact IH].
    apply Hrow. }
  assert (Hr : Forall (fun r => length r = length vs) (map f ns)).
  { apply List.Forall_forall. intros r Hr. apply in_map_iff in Hr as (n & <- & _).
    unfold f. apply length_map. }
  assert (Hs : Forall (Forall scalar_node) (map f ns)).
  { apply List.Forall_forall. intros r Hrin. apply in_map_iff in Hrin as (n & <- & _). apply Hfs. }
  assert (Hne : map f ns <> []) by (intros Hnil; apply map_eq_nil in Hnil; congruence).
  assert (Hm : (0 < length vs)%nat) by (destruct vs; [congruence|cbn; lia]).
  exists (Tensor (map Tensor (map f ns))). split; [|split; [|split]].
  - cbn [diff]. rewrite Hrows. cbn [mbind result_bind]. unfold tensor_new.
    rewrite (map_res_all_ok express (map Tensor (map f ns)) (map Tensor (map f ns))).
    + cbn [mbind result_bind]. exact (tensor_check_rows _ _ Hne Hm Hr Hs).
    + clear. induction (map f ns); constructor; [reflexivity|exact IHl].
  - rewrite map_map. reflexivity.
  - exact (proj1 (wf_matrix _ _ Hne Hm Hr Hs)).
  - rewrite (proj2 (wf_matrix _ _ Hne Hm Hr Hs)), length_map. reflexivity.
Qed.

Lemma diff_jacobian_witness :
  exists t, diff (Tensor [Symbol "x"; Symbol "y"]) (Tensor [Symbol "x"; Symbol "y"; Symbol "z"]) = Ok t /\
    t = Tensor [Tensor [Number NInt 1; Derivative (Symbol "y") (Some (Symbol "x"));
                        Derivative (Symbol "z") (Some (Symbol "x"))];
                Tensor [Derivative (Symbol "x") (Some (Symbol "y")); Number NInt 1;
                        Derivative (Symbol "z") (Some (Symbol "y"))]] /\
    wf t = true /\ shape t = Ok [2%nat; 3%nat].
Proof.
  destruct (diff_jacobian ["x"; "y"]%string ["x"; "y"; "z"]%string) as (t & H1 & H2 & H3 & H4);
    [discriminate|discriminate|].
  exists t. split; [exact H1|]. split; [rewrite H2; reflexivity|]. split; [exact H3|exact H4].
Defined.

(** ** The shortcuts for 0 and 1 *)




(** ** Negation *)

(** X20. For a non-Tensor node [x] whose value is the int [a], [-x] is
    [x] itself when [x] is a zero constant and [Negative(x)] otherwise;
    it evaluates to [-a], and [-(-x)] evaluates to [a] again. *)
Theorem neg_eval (n : nat) (B : bindings) (x : obj) (a : Z) :
  is_node x = true -> eval n B x = Ok (PyNum NInt a) ->
  exists r r', py_neg x = Ok r /\ r = (if eq_int x 0 then x else Negative x) /\
    eval (S n) B r = Ok (PyNum NInt (- a)) /\
    py_neg r = Ok r' /\ eval (S (S n)) B r' = Ok (PyNum NInt a).
Proof.
  intros Hx Ha.
  destruct (py_neg_int_eval n B x a Hx Ha) as (r & H1 & H2 & H3).
  destruct (py_neg_int_eval (S n) B r (- a) H2 H3) as (r' & H1' & _ & H3').
  exists r, r'. split; [exact H1|]. split.
  - rewrite py_neg_scalar in H1 by first [exact Hx | exact (eval_int_not_tensor _ _ _ _ _ Ha)].
    destruct (eq_int x 0); injection H1 as <-; reflexivity.
  - split; [exact H3|]. split; [exact H1'|]. rewrite Z.opp_involutive in H3'. exact H3'.
Qed.

Lemma neg_eval_witness :
  exists r r', py_neg (Symbol "x") = Ok r /\ r = Negative (Symbol "x") /\
    eval 2 {[ "x" := PyNum NInt 5 ]} r = Ok (PyNum NInt (-5)) /\
    py_neg r = Ok r' /\ eval 3 {[ "x" := PyNum NInt 5 ]} r' = Ok (PyNum NInt 5).
Proof.
  destruct (neg_eval 1 {[ "x" := PyNum NInt 5 ]} (Symbol "x") 5 eq_refl)
    as (r & r' & H1 & H2 & H3 & H4 & H5); [vm_compute; reflexivity|].
  exists r, r'. split; [exact H1|]. split; [exact H2|]. split; [exact H3|].
  split; [exact H4|exact H5].
Defined.

(** ** Tensors of host numbers *)

(** X21. [Tensor(args)] on a non-empty list of ints, or on a non-empty
    list of int lists of one common non-zero length, builds a vector of
    [Number]s, or a matrix of them, and evaluating it under any bindings
    gives back the ints as an array, or an array of arrays. *)
Theorem tensor_of_ints_eval (B : bindings) :
  (forall vs : list Z, vs <> [] ->
     tensor_new (map (PyNum NInt) vs) = Ok (Tensor (map (Number NInt) vs)) /\
     eval 2 B (Tensor (map (Number NInt) vs)) = Ok (PyArray (map (PyNum NInt) vs))) /\
  (forall (rows : list (list Z)) (m : nat), rows <> [] -> (0 < m)%nat ->
     Forall (fun r => length r = m) rows ->
     tensor_new (map (fun r => PyList (map (PyNum NInt) r)) rows) =
       Ok (Tensor (map (fun r => Tensor (map (Number NInt) r)) rows)) /\
     eval 3 B (Tensor (map (fun r => Tensor (map (Number NInt) r)) rows)) =
       Ok (PyArray (map (fun r => PyArray (map (PyNum NInt) r)) rows))).
Proof.
  assert (Hsc : forall vs : list Z, Forall scalar_node (map (Number NInt) vs)).
  { intros vs. induction vs; constructor; [split; reflexivity|exact IHvs]. }
  assert (Hex : forall vs : list Z, map_res express (map (PyNum NInt) vs) = Ok (map (Number NInt) vs)).
  { intros vs. apply map_res_all_ok. induction vs; constructor; [reflexivity|exact IHvs]. }
  assert (Hev : forall k (vs : list Z),
             Forall2 (fun e c => eval (S k) B e = Ok (PyNum NInt c)) (map (Number NInt) vs) vs).
  { intros k vs. induction vs; constructor; [reflexivity|exact IHvs]. }
  assert (Hrow : forall vs : list Z, vs <> [] ->
             tensor_new (map (PyNum NInt) vs) = Ok (Tensor (map (Number NInt) vs))).
  { intros vs Hne. unfold tensor_new. rewrite Hex. cbn [mbind result_bind].
    apply tensor_check_scalars; [|apply Hsc]. intros Hnil. apply map_eq_nil in Hnil. congruence. }
  split.
  - intros vs Hne. split; [exact (Hrow vs Hne)|].
    exact (eval_tensor_ints 1 B _ vs (Hev 0%nat vs)).
  - intros rows m Hne Hm Hr. split.
    + unfold tensor_new.
      rewrite (map_res_all_ok express (map (fun r => PyList (map (PyNum NInt) r)) rows)
                 (map (fun r => Tensor (map (Number NInt) r)) rows)).
      * cbn [mbind result_bind]. rewrite <- (map_map (map (Number NInt)) Tensor).
        apply (tensor_check_rows _ m); [intros Hnil; apply map_eq_nil in Hnil; congruence|exact Hm| |].
        -- apply List.Forall_forall. intros r Hin. apply in_map_iff in Hin as (r0 & <- & Hin).
           rewrite length_map. rewrite List.Forall_forall in Hr. exact (Hr r0 Hin).
        -- apply List.Forall_forall. intros r Hin. apply in_map_iff in Hin as (r0 & <- & _).
           apply Hsc.
      * clear Hne. induction Hr as [|r rows Hlen _ IH]; constructor; [|exact IH].
        cbn [express is_node]. fold (tensor_new (map (PyNum NInt) r)).
        apply Hrow. intros ->. cbn in Hlen. lia.
    + rewrite eval_S.
      rewrite (map_res_all_ok (eval 2 B) (map (fun r => Tensor (map (Number NInt) r)) rows)
                 (map (fun r => PyArray (map (PyNum NInt) r)) rows)).
      * cbn [mbind result_bind].
        assert (E : forall l : list (list Z),
                   existsb is_node (map (fun r => PyArray (map (PyNum NInt) r)) l) = false).
        { intros l. induction l; [reflexivity|exact IHl]. }
        rewrite E. reflexivity.
      * clear -Hev. induction rows as [|r rows IH]; constructor; [|exact IH].
        exact (eval_tensor_ints 1 B _ r (Hev 0%nat r)).
Qed.

Lemma tensor_of_ints_eval_witness :
  tensor_new [PyList [PyNum NInt 1; PyNum NInt 2]; PyList [PyNum NInt 3; PyNum NInt 4]] =
    Ok (Tensor [Tensor [Number NInt 1; Number NInt 2]; Tensor [Number NInt 3; Number NInt 4]]) /\
  eval 3 ∅ (Tensor [Tensor [Number NInt 1; Number NInt 2]; Tensor [Number NInt 3; Number NInt 4]]) =
    Ok (PyArray [PyArray [PyNum NInt 1; PyNum NInt 2]; PyArray [PyNum NInt 3; PyNum NInt 4]]).
Proof.
  apply ((proj2 (tensor_of_ints_eval ∅)) [[1; 2]; [3; 4]] 2%nat);
    [discriminate|lia|repeat constructor].
Defined.

(** ** Printing products *)

(** X22. A product of two int constants other than 0 and 1 is not folded:
    [Number(a) * Number(b)] is the node [Multiply(a, b)], which evaluates
    to [a * b] but prints as the two numbers written side by side; likewise
    the product of two Symbols is a [Multiply] node, not a Symbol, yet it
    prints exactly as the Symbol whose name joins the two names. *)
Theorem product_repr (B : bindings) (a b : Z) (x y : string) :
  a <> 0 -> a <> 1 -> b <> 0 -> b <> 1 ->
  py_mul (Number NInt a) (Number NInt b) = Ok (Multiply [Number NInt a; Number NInt b]) /\
  py_repr (Multiply [Number NInt a; Number NInt b]) = Ok (pretty a +:+ pretty b) /\
  eval 2 B (Multiply [Number NInt a; Number NInt b]) = Ok (PyNum NInt (a * b)) /\
  exists m, py_mul (Symbol x) (Symbol y) = Ok m /\ m <> Symbol (x +:+ y) /\
    py_repr m = py_repr (Symbol (x +:+ y)).
Proof.
  intros Ha0 Ha1 Hb0 Hb1.
  apply Z.eqb_neq in Ha0, Ha1, Hb0, Hb1.
  split; [|split; [|split]].
  - cbn [py_mul mul_by is_array orb is_node negb andb eq_int].
    rewrite Ha0, Ha1, Hb0, Hb1. reflexivity.
  - reflexivity.
  - reflexivity.
  - exists (Multiply [Symbol x; Symbol y]). split; [reflexivity|]. split; [discriminate|].
    reflexivity.
Qed.

Lemma product_repr_witness :
  py_mul (Number NInt 2) (Number NInt 3) = Ok (Multiply [Number NInt 2; Number NInt 3]) /\
  py_repr (Multiply [Number NInt 2; Number NInt 3]) = py_repr (Number NInt 23) /\
  eval 2 ∅ (Multiply [Number NInt 2; Number NInt 3]) = Ok (PyNum NInt 6) /\
  exists m, py_mul (Symbol "x") (Symbol "y") = Ok m /\ m <> Symbol "xy" /\
    py_repr m = py_repr (Symbol "xy").
Proof.
  destruct (product_repr ∅ 2 3 "x" "y") as (H1 & H2 & H3 & H4); [lia..|].
  split; [exact H1|]. split; [rewrite H2; vm_compute; reflexivity|].
  split; [exact H3|exact H4].
Defined.

(** ** A scalar and a vector *)

Lemma map_scalars_ints n m B (f : obj -> result obj) (g : Z -> Z) (xs : list obj) (avs : list Z) :
  (forall x a, scalar_node x -> eval n B x = Ok (PyNum NInt a) ->
     exists r, f x = Ok r /\ is_node r = true /\ eval m B r = Ok (PyNum NInt (g a))) ->
  xs <> [] -> Forall scalar_node xs ->
  Forall2 (fun x a => eval n B x = Ok (PyNum NInt a)) xs avs ->
  exists r, (es ← map_res f xs; tensor_new es) = Ok r /\
    eval (S m) B r = Ok (PyArray (map (fun a => PyNum NInt (g a)) avs)).
Proof.
  intros Hf Hne Hs Ha.
  assert (H : exists es, map_res f xs = Ok es /\ length es = length xs /\ Forall scalar_node es /\
            Forall2 (fun e c => eval m B e = Ok (PyNum NInt c)) es (map g avs)).
  { clear Hne. induction Ha as [|x a xs avs Hxa _ IH].
    - exists []. repeat split; constructor.
    - inversion Hs as [|? ? Hx Hs']; subst.
      destruct (Hf x a Hx Hxa) as (r & R1 & R2 & R3).
      destruct (IH Hs') as (es & E1 & E2 & E3 & E4).
      exists (r :: es). split; [|split; [|split]].
      + cbn. rewrite R1. cbn [mbind result_bind]. rewrite E1. reflexivity.
      + cbn [length]. rewrite E2. reflexivity.
      + constructor; [split; [exact R2|exact (eval_int_not_tensor _ _ _ _ _ R3)]|exact E3].
      + constructor; assumption. }
  destruct H as (es & E1 & E2 & E3 & E4).
  exists (Tensor es). split.
  - rewrite E1. cbn [mbind result_bind]. apply tensor_new_scalars; [|exact E3].
    intros ->. destruct xs; [congruence|discriminate].
  - rewrite (eval_tensor_ints m B es _ E4), map_map. reflexivity.
Qed.

Lemma tensor_ints_lift n m B (xs : list obj) (avs : list Z) :
  (n <= m)%nat -> Forall2 (fun x a => eval n B x = Ok (PyNum NInt a)) xs avs ->
  eval (S m) B (Tensor xs) = Ok (PyArray (map (PyNum NInt) avs)).
Proof.
  intros Hle H. apply eval_tensor_ints.
  induction H; constructor; [apply (eval_lift n m); assumption|assumption].
Qed.

Lemma tensor_scalar_ops (xs : list obj) (c : obj) :
  scalar_node c ->
  py_add (Tensor xs) c = (if eq_int c 0 then Ok (Tensor xs)
                          else es ← map_res (fun x => py_add x c) xs; tensor_new es) /\
  py_mul (Tensor xs) c = (if eq_int c 1 then Ok (Tensor xs)
                          else es ← map_res (fun x => py_mul x c) xs; tensor_new es) /\
  py_sub (Tensor xs) c = (es ← map_res (fun x => py_sub x c) xs; tensor_new es).
Proof. intros [Hc Ht]. destruct c; try discriminate; repeat split; reflexivity. Qed.

Lemma scalar_tensor_ops (c : obj) (ys : list obj) :
  scalar_node c -> (forall w, c <> Derivative w None) ->
  py_add c (Tensor ys) = (if eq_int c 0 then Ok (Tensor ys)
                          else es ← map_res (py_add c) ys; tensor_new es) /\
  py_mul c (Tensor ys) = (if eq_int c 1 then Ok (Tensor ys)
                          else es ← map_res (py_mul c) ys; tensor_new es) /\
  py_sub c (Tensor ys) = (es ← map_res (py_sub c) ys; tensor_new es).
Proof.
  intros [Hc Ht] Hnb.
  destruct c as [| | | | |w [a|]| | | | | | |]; try discriminate;
    try (exfalso; exact (Hnb w eq_refl)); repeat split; reflexivity.
Qed.

(** X23. A non-Tensor node [c] whose value is the int [k], combined with a
    non-empty vector of non-Tensor nodes with int values, is broadcast
    over the vector on either side: [v + c], [c + v], [v * c], [c * v],
    [v - c] and [c - v] all evaluate to the arrays of the elementwise
    results, the shortcuts for 0 and 1 included. *)
Theorem scalar_broadcast (n : nat) (B : bindings) (c : obj) (k : Z) (xs : list obj) (avs : list Z) :
  is_node c = true -> eval n B c = Ok (PyNum NInt k) ->
  xs <> [] -> Forall scalar_node xs ->
  Forall2 (fun x a => eval n B x = Ok (PyNum NInt a)) xs avs ->
  let ev r := eval (S (S (S n))) B r in
  (exists r, py_add (Tensor xs) c = Ok r /\ ev r = Ok (PyArray (map (fun a => PyNum NInt (a + k)) avs))) /\
  (exists r, py_add c (Tensor xs) = Ok r /\ ev r = Ok (PyArray (map (fun a => PyNum NInt (k + a)) avs))) /\
  (exists r, py_mul (Tensor xs) c = Ok r /\ ev r = Ok (PyArray (map (fun a => PyNum NInt (a * k)) avs))) /\
  (exists r, py_mul c (Tensor xs) = Ok r /\ ev r = Ok (PyArray (map (fun a => PyNum NInt (k * a)) avs))) /\
  (exists r, py_sub (Tensor xs) c = Ok r /\ ev r = Ok (PyArray (map (fun a => PyNum NInt (a - k)) avs))) /\
  (exists r, py_sub c (Tensor xs) = Ok r /\ ev r = Ok (PyArray (map (fun a => PyNum NInt (k - a)) avs))).
Proof.
  intros Hc Hk Hne Hs Ha ev.
  assert (Hsc : scalar_node c) by exact (conj Hc (eval_int_not_tensor _ _ _ _ _ Hk)).
  assert (Hnb : forall w, c <> Derivative w None).
  { intros w ->. destruct n; cbn in Hk; discriminate. }
  destruct (tensor_scalar_ops xs c Hsc) as (R1 & R2 & R3).
  destruct (scalar_tensor_ops c xs Hsc Hnb) as (L1 & L2 & L3).
  (* the value of [c] when it is the constant 0 or 1 *)
  assert (Hk0 : eq_int c 0 = true -> k = 0) by (intros E; exact (eval_zero_inv n B c k Hc E Hk)).
  assert (Hk1 : eq_int c 1 = true -> k = 1).
  { intros E. destruct (node_eq_int_number c 1 Hc E) as [t ->].
    apply eval_number_inv in Hk. injection Hk as _ <-. reflexivity. }
  assert (Hid : forall h : Z -> Z, (forall a, h a = a) ->
            ev (Tensor xs) = Ok (PyArray (map (fun a => PyNum NInt (h a)) avs))).
  { intros h Hh. unfold ev. rewrite (tensor_ints_lift n (S (S n)) B xs avs ltac:(lia) Ha).
    do 2 f_equal. apply map_ext. intros a. rewrite Hh. reflexivity. }
  assert (Hadd : forall g : Z -> Z, (forall a, g a = a + k) -> forall f : obj -> result obj,
            (forall x, is_node x = true -> f x = py_add x c) ->
            exists r, (es ← map_res f xs; tensor_new es) = Ok r /\
              ev r = Ok (PyArray (map (fun a => PyNum NInt (g a)) avs))).
  { intros g Hg f Hf. apply (map_scalars_ints n (S (S n)) B f g xs avs); try assumption.
    intros x a [Hx _] Hxa. rewrite (Hf x Hx).
    destruct (py_add_ints_eval n B x c a k Hx Hc Hxa Hk) as (r & P1 & P2 & P3).
    exists r. split; [exact P1|]. split; [exact P2|]. rewrite Hg. exact (eval_lift (S n) (S (S n)) B r _ ltac:(lia) P3). }
  split; [|split; [|split; [|split; [|split]]]].
  - rewrite R1. destruct (eq_int c 0) eqn:E.
    + exists (Tensor xs). split; [reflexivity|]. apply Hid. intros a. rewrite (Hk0 eq_refl). lia.
    + apply (Hadd (fun a => a + k)); [reflexivity|]. intros; reflexivity.
  - rewrite L1. destruct (eq_int c 0) eqn:E.
    + exists (Tensor xs). split; [reflexivity|]. apply Hid. intros a. rewrite (Hk0 eq_refl). lia.
    + destruct (map_scalars_ints n (S (S n)) B (py_add c) (fun a => k + a) xs avs)
        as (r & P1 & P2); [|assumption..|].
      * intros x a [Hx _] Hxa.
        destruct (py_add_ints_eval n B c x k a Hc Hx Hk Hxa) as (r & Q1 & Q2 & Q3).
        exists r. split; [exact Q1|]. split; [exact Q2|]. exact (eval_lift (S n) (S (S n)) B r _ ltac:(lia) Q3).
      * exists r. split; [exact P1|exact P2].
  - rewrite R2. destruct (eq_int c 1) eqn:E.
    + exists (Tensor xs). split; [reflexivity|]. apply Hid. intros a. rewrite (Hk1 eq_refl). lia.
    + destruct (map_scalars_ints n (S (S n)) B (fun x => py_mul x c) (fun a => a * k) xs avs)
        as (r & P1 & P2); [|assumption..|].
      * intros x a Hx Hxa.
        destruct (py_mul_scalars_eval n B x c a k Hx Hsc Hxa Hk) as (r & Q1 & [Q2 _] & Q3).
        exists r. split; [exact Q1|]. split; [exact Q2|]. exact (eval_lift (S n) (S (S n)) B r _ ltac:(lia) Q3).
      * exists r. split; [exact P1|exact P2].
  - rewrite L2. destruct (eq_int c 1) eqn:E.
    + exists (Tensor xs). split; [reflexivity|]. apply Hid. intros a. rewrite (Hk1 eq_refl). lia.
    + destruct (map_scalars_ints n (S (S n)) B (py_mul c) (fun a => k * a) xs avs)
        as (r & P1 & P2); [|assumption..|].
      * intros x a Hx Hxa.
        destruct (py_mul_scalars_eval n B c x k a Hsc Hx Hk Hxa) as (r & Q1 & [Q2 _] & Q3).
        exists r. split; [exact Q1|]. split; [exact Q2|]. exact (eval_lift (S n) (S (S n)) B r _ ltac:(lia) Q3).
      * exists r. split; [exact P1|exact P2].
  - rewrite R3.
    destruct (map_scalars_ints n (S (S n)) B (fun x => py_sub x c) (fun a => a - k) xs avs)
      as (r & P1 & P2); [|assumption..|].
    + intros x a [Hx _] Hxa.
      destruct (sub_scalar_eval n B x c a k Hx Hc Hxa Hk) as (ny & Q1 & _ & Q3).
      exists (Add [x; ny]). split; [exact Q1|]. split; [reflexivity|exact Q3].
    + exists r. split; [exact P1|exact P2].
  - rewrite L3.
    destruct (map_scalars_ints n (S (S n)) B (py_sub c) (fun a => k - a) xs avs)
      as (r & P1 & P2); [|assumption..|].
    + intros x a [Hx _] Hxa.
      destruct (sub_scalar_eval n B c x k a Hc Hx Hk Hxa) as (ny & Q1 & _ & Q3).
      exists (Add [c; ny]). split; [exact Q1|]. split; [reflexivity|exact Q3].
    + exists r. split; [exact P1|exact P2].
Qed.

Lemma scalar_broadcast_witness :
  let B : bindings := {[ "k" := PyNum NInt 10; "x" := PyNum NInt 3 ]} in
  let v := Tensor [Symbol "x"; Number NInt 4] in
  let ev r := eval 4 B r in
  (exists r, py_add v (Symbol "k") = Ok r /\ ev r = Ok (PyArray [PyNum NInt 13; PyNum NInt 14])) /\
  (exists r, py_add (Symbol "k") v = Ok r /\ ev r = Ok (PyArray [PyNum NInt 13; PyNum NInt 14])) /\
  (exists r, py_mul v (Symbol "k") = Ok r /\ ev r = Ok (PyArray [PyNum NInt 30; PyNum NInt 40])) /\
  (exists r, py_mul (Symbol "k") v = Ok r /\ ev r = Ok (PyArray [PyNum NInt 30; PyNum NInt 40])) /\
  (exists r, py_sub v (Symbol "k") = Ok r /\ ev r = Ok (PyArray [PyNum NInt (-7); PyNum NInt (-6)])) /\
  (exists r, py_sub (Symbol "k") v = Ok r /\ ev r = Ok (PyArray [PyNum NInt 7; PyNum NInt 6])).
Proof.
  intros B v ev.
  exact (scalar_broadcast 1 B (Symbol "k") 10 [Symbol "x"; Number NInt 4] [3; 4]
           eq_refl ltac:(vm_compute; reflexivity) ltac:(discriminate)
           ltac:(repeat constructor) ltac:(repeat constructor; vm_compute; reflexivity)).
Defined.

(** ** Host numbers as operands *)


